(** * A shallow embedding of number_guessing_game.py

    The round loop [play_round], the highscore table operations
    [load_highscores], [save_highscores] and [update_highscore], and the
    "Play" branch of [menu_loop].  Python ints are [Z]; a Python dict is an
    association list that keeps insertion order, as CPython's dict does. *)

From Stdlib Require Import String Ascii ZArith List Bool Lia DecimalZ.
Import ListNotations.
Open Scope Z_scope.
Set Warnings "-register-all".

(** ** Difficulties: the [DIFFICULTIES] dict *)

Inductive difficulty := Easy | Normal | Hard.

Definition diff_key (d : difficulty) : string :=
  match d with Easy => "E" | Normal => "N" | Hard => "H" end.

Definition diff_name (d : difficulty) : string :=
  match d with Easy => "Easy" | Normal => "Normal" | Hard => "Hard" end.

Definition max_attempts (d : difficulty) : option Z :=
  match d with Easy => None | Normal => Some 10 | Hard => Some 7 end.

(** [DIFFICULTIES.values()], in insertion order. *)
Definition DIFFICULTIES : list difficulty := [Easy; Normal; Hard].

(** ** The round: [play_round] *)

(** What one iteration of the loop prints. *)
Inductive msg :=
| MsgOutOfAttempts (secret : Z)   (* " Out of attempts! ..." and the reveal *)
| MsgRemaining (remaining : Z)    (* "Attempts remaining: ..." *)
| MsgCorrect (attempts : Z)       (* " Correct! You got it in ..." *)
| MsgTooLow
| MsgTooHigh
| MsgVeryClose
| MsgGettingWarm
| MsgCold.

(** How the loop stops: it returns an int and leaves the unread input, or it
    is still blocked in [input_int] waiting for a guess, with its counter. *)
Inductive run :=
| Returned (value : Z) (unread : list Z)
| Blocked (attempts : Z).

(** The sentinel [10**9] returned when the attempts run out. *)
Definition FORFEIT : Z := 10 ^ 9.

Definition direction_msg (guess secret : Z) : msg :=
  if guess <? secret then MsgTooLow else MsgTooHigh.

Definition proximity_msg (diff : Z) : msg :=
  if diff <=? 5 then MsgVeryClose
  else if diff <=? 10 then MsgGettingWarm
  else MsgCold.

(** The [while True] loop.  [inputs] are the values returned by the
    successive calls of [input_int(..., 1, 100)]. *)
Fixpoint play_loop (max_attempts : option Z) (secret attempts : Z)
    (inputs : list Z) : list msg * run :=
  let '(pre, out) :=
    match max_attempts with
    | Some m =>
        let remaining := m - attempts in
        if remaining <=? 0 then ([MsgOutOfAttempts secret], true)
        else ([MsgRemaining remaining], false)
    | None => ([], false)
    end in
  if out then (pre, Returned FORFEIT inputs)
  else
    match inputs with
    | [] => (pre, Blocked attempts)
    | guess :: rest =>
        let attempts := attempts + 1 in
        if guess =? secret then (pre ++ [MsgCorrect attempts], Returned attempts rest)
        else
          let dir := direction_msg guess secret in
          let diff := Z.abs (secret - guess) in
          let prox := proximity_msg diff in
          let '(tr, r) := play_loop max_attempts secret attempts rest in
          (pre ++ [dir; prox] ++ tr, r)
    end.

(** [secret] is the value drawn by [random.randint(1, 100)]. *)
Definition play_round (max_attempts : option Z) (secret : Z) (inputs : list Z)
    : list msg * run :=
  play_loop max_attempts secret 0 inputs.

Example play_round_ex1 :
  play_round None 50 [10; 90; 50] =
  ([MsgTooLow; MsgCold; MsgTooHigh; MsgCold; MsgCorrect 3], Returned 3 []).
Proof. reflexivity. Qed.

Example play_round_ex2 :
  play_round (Some 2) 50 [10; 90; 30] =
  ([MsgRemaining 2; MsgTooLow; MsgCold; MsgRemaining 1; MsgTooHigh; MsgCold;
    MsgOutOfAttempts 50], Returned FORFEIT [30]).
Proof. reflexivity. Qed.

(** ** Python values, exceptions and the file *)

Inductive py_exn := OSError | JSONDecodeError | UnicodeDecodeError | AttributeError.

Inductive py_result (A : Type) := PyOk (a : A) | PyRaise (e : py_exn).
Arguments PyOk {A} a.
Arguments PyRaise {A} e.

Inductive py_val := PyNone | PyBool (b : bool) | PyInt (z : Z).

(** The highscore file [guess_highscore.json]: its text, or [None] when it
    does not exist. *)
Definition fs := option string.

(** What [open(HIGHSCORE_FILE, "w")] and the writes of [json.dump] do:
    the open may fail (file untouched), or it truncates the file and the
    writes may fail after [n] characters have reached it. *)
Inductive write_outcome := WriteOk | OpenFails | WriteFailsAfter (n : nat).

Definition write_file (w : write_outcome) (text : string) (f : fs)
    : py_result unit * fs :=
  match w with
  | WriteOk => (PyOk tt, Some text)
  | OpenFails => (PyRaise OSError, f)
  | WriteFailsAfter n => (PyRaise OSError, Some (substring 0 n text))
  end.

(** ** The highscore table: a [Dict[str, Optional[int]]] *)

(** A value of the table: [update_highscore] stores ints, and
    [load_highscores] stores any value of the file with
    [isinstance(v, int)], so also a JSON [true] or [false], which it keeps
    as the [bool] [True] or [False]. *)
Inductive num := NInt (z : Z) | NBool (b : bool).

(** The number a value is in a comparison such as [attempts < best]. *)
Definition num_val (n : num) : Z :=
  match n with NInt z => z | NBool b => Z.b2z b end.

Definition table := list (string * option num).

(** [k in d] / [d[k]]: [None] when the key is missing. *)
Fixpoint dict_lookup (d : table) (k : string) : option (option num) :=
  match d with
  | [] => None
  | (k', v) :: r => if String.eqb k k' then Some v else dict_lookup r k
  end.

(** [d.get(k)], as the number it compares as. *)
Definition scores_get (d : table) (k : string) : option Z :=
  match dict_lookup d k with Some (Some n) => Some (num_val n) | _ => None end.

(** [d[k] = v]: replaced in place when present, appended otherwise. *)
Fixpoint dict_set (d : table) (k : string) (v : option num) : table :=
  match d with
  | [] => [(k, v)]
  | (k', v') :: r => if String.eqb k k' then (k', v) :: r else (k', v') :: dict_set r k v
  end.

Definition dict_keys (d : table) : list string := map fst d.

(** *** [json.dump(scores, f, indent=2)] *)

Fixpoint uint_to_string (u : Decimal.uint) : string :=
  match u with
  | Decimal.Nil => EmptyString
  | Decimal.D0 u => String "0" (uint_to_string u)
  | Decimal.D1 u => String "1" (uint_to_string u)
  | Decimal.D2 u => String "2" (uint_to_string u)
  | Decimal.D3 u => String "3" (uint_to_string u)
  | Decimal.D4 u => String "4" (uint_to_string u)
  | Decimal.D5 u => String "5" (uint_to_string u)
  | Decimal.D6 u => String "6" (uint_to_string u)
  | Decimal.D7 u => String "7" (uint_to_string u)
  | Decimal.D8 u => String "8" (uint_to_string u)
  | Decimal.D9 u => String "9" (uint_to_string u)
  end.

(** [str(z)] *)
Definition z_to_string (z : Z) : string :=
  match Z.to_int z with
  | Decimal.Pos u => uint_to_string u
  | Decimal.Neg u => String "-" (uint_to_string u)
  end.

(** A one-character string holding the double quote. *)
Definition dq : string := String (ascii_of_nat 34) EmptyString.

Definition hex_digit (n : nat) : ascii :=
  ascii_of_nat (if Nat.ltb n 10 then 48 + n else 87 + n).

(** One character of a JSON string literal, as [json] escapes it with
    [ensure_ascii=True] (a byte above 127 stands for that code point). *)
Definition json_escape_char (c : ascii) : string :=
  let n := nat_of_ascii c in
  if Nat.eqb n 34 then String "\" dq
  else if Ascii.eqb c "\" then "\\"
  else if Nat.eqb n 10 then "\n"
  else if Nat.eqb n 13 then "\r"
  else if Nat.eqb n 9 then "\t"
  else if Nat.eqb n 8 then "\b"
  else if Nat.eqb n 12 then "\f"
  else if Nat.ltb n 32 || Nat.ltb 127 n then
    String "\" (String "u" (String "0" (String "0"
      (String (hex_digit (Nat.div n 16)) (String (hex_digit (Nat.modulo n 16)) EmptyString)))))
  else String c EmptyString.

Fixpoint json_escape (s : string) : string :=
  match s with
  | EmptyString => EmptyString
  | String c s' => json_escape_char c ++ json_escape s'
  end.

Definition nl : string := String (ascii_of_nat 10) EmptyString.

Definition dump_member (kv : string * option num) : string :=
  "  " ++ dq ++ json_escape (fst kv) ++ dq ++ ": " ++
  match snd kv with
  | None => "null"
  | Some (NInt z) => z_to_string z
  | Some (NBool true) => "true"
  | Some (NBool false) => "false"
  end.

Fixpoint dump_members (kvs : table) : string :=
  match kvs with
  | [] => EmptyString
  | [kv] => dump_member kv
  | kv :: r => dump_member kv ++ "," ++ nl ++ dump_members r
  end.

Definition json_dump (scores : table) : string :=
  match scores with
  | [] => "{}"
  | _ => "{" ++ nl ++ dump_members scores ++ nl ++ "}"
  end.

(** ** [save_highscores] *)

Definition save_highscores (w : write_outcome) (scores : table) (f : fs)
    : py_result py_val * fs :=
  let '(r, f') := write_file w (json_dump scores) f in
  match r with
  | PyOk _ => (PyOk PyNone, f')
  | PyRaise OSError => (PyOk PyNone, f')   (* except OSError: pass *)
  | PyRaise e => (PyRaise e, f')
  end.

(** ** [update_highscore]: [scores] is mutated in place, so the table is
    returned together with the result; [w] is how the save goes. *)

Definition update_highscore (w : write_outcome) (f : fs) (scores : table)
    (difficulty_name : string) (attempts : Z) : py_result bool * table * fs :=
  let best := scores_get scores difficulty_name in
  if match best with None => true | Some b => attempts <? b end then
    let scores' := dict_set scores difficulty_name (Some (NInt attempts)) in
    let '(r, f') := save_highscores w scores' f in
    match r with
    | PyOk _ => (PyOk true, scores', f')
    | PyRaise e => (PyRaise e, scores', f')
    end
  else (PyOk false, scores, f).

(** ** [load_highscores] *)

Inductive json :=
| JNull
| JBool (b : bool)
| JInt (z : Z)
| JFloat (literal : string)
| JStr (s : string)
| JArr (items : list json)
| JObj (members : list (string * json)).

(** What the file yields when it exists: [open]/[json.load] raise, or
    decode to a JSON value. *)
Inductive file_view :=
| FileMissing
| FileReadFails (e : py_exn)
| FileDecoded (data : json).

(** [data.get(k)]: only a dict has [.get]; a JSON object with a repeated
    key keeps the last value. *)
Definition obj_get (ms : list (string * json)) (k : string) : option json :=
  fold_left (fun acc '(k', v) => if String.eqb k' k then Some v else acc) ms None.

Definition json_get (data : json) (k : string) : py_result (option json) :=
  match data with
  | JObj ms => PyOk (obj_get ms k)
  | _ => PyRaise AttributeError
  end.

(** [isinstance(v, int)], with the value kept as it is ([bool] is a
    subclass of [int], so [True] and [False] pass and stay bools). *)
Definition py_int (v : option json) : option num :=
  match v with
  | Some (JInt z) => Some (NInt z)
  | Some (JBool b) => Some (NBool b)
  | _ => None
  end.

(** The [for] loop over [scores.keys()]; an exception stops it, leaving
    the entries already set. *)
Fixpoint load_loop (data : json) (keys : list string) (scores : table)
    : table * option py_exn :=
  match keys with
  | [] => (scores, None)
  | k :: ks =>
      match json_get data k with
      | PyRaise e => (scores, Some e)
      | PyOk v =>
          match py_int v with
          | Some z => load_loop data ks (dict_set scores k (Some z))
          | None => load_loop data ks scores
          end
      end
  end.

Definition load_caught (e : py_exn) : bool :=
  match e with JSONDecodeError | OSError => true | _ => false end.

Definition default_scores : table := map (fun d => (diff_name d, None)) DIFFICULTIES.

Definition load_highscores (fv : file_view) : py_result table :=
  let scores := default_scores in
  match fv with
  | FileMissing => PyOk scores
  | FileReadFails e => if load_caught e then PyOk scores else PyRaise e
  | FileDecoded data =>
      match load_loop data (dict_keys scores) scores with
      | (s, None) => PyOk s
      | (s, Some e) => if load_caught e then PyOk s else PyRaise e
      end
  end.

(** ** The "Play" branch of [menu_loop], after [play_round] returned
    [attempts]: [Some r] when [update_highscore] was called, with its
    result. *)
Definition menu_after_round (w : write_outcome) (f : fs) (scores : table)
    (d : difficulty) (attempts : Z) : option (py_result bool) * table * fs :=
  if attempts <? FORFEIT then
    let '(r, scores', f') := update_highscore w f scores (diff_name d) attempts in
    (Some r, scores', f')
  else (None, scores, f).

(** A sequence of [update_highscore] calls, each with its save outcome. *)
Fixpoint run_updates (ops : list (write_outcome * string * Z)) (scores : table)
    (f : fs) : table * fs :=
  match ops with
  | [] => (scores, f)
  | (w, name, a) :: ops' =>
      let '(_, scores', f') := update_highscore w f scores name a in
      run_updates ops' scores' f'
  end.

(** The attempts passed for [name] in a sequence of calls. *)
Definition attempts_for (name : string) (ops : list (write_outcome * string * Z)) : list Z :=
  map snd (filter (fun op => String.eqb (snd (fst op)) name) ops).

(** The least of a list of ints, [None] for the empty list. *)
Fixpoint list_min (xs : list Z) : option Z :=
  match xs with
  | [] => None
  | x :: r => Some (match list_min r with None => x | Some m => Z.min x m end)
  end.

Example json_dump_ex :
  json_dump [("Easy"%string, Some (NInt 7)); ("Normal"%string, None); ("Hard"%string, Some (NInt (-12)))] =
  ("{" ++ nl ++ "  " ++ dq ++ "Easy" ++ dq ++ ": 7," ++ nl ++
   "  " ++ dq ++ "Normal" ++ dq ++ ": null," ++ nl ++
   "  " ++ dq ++ "Hard" ++ dq ++ ": -12" ++ nl ++ "}")%string.
Proof. reflexivity. Qed.

Example load_ex :
  load_highscores (FileDecoded (JObj [("Easy"%string, JStr "not-a-number"); ("Normal"%string, JInt 4)]))
  = PyOk [("Easy"%string, None); ("Normal"%string, Some (NInt 4)); ("Hard"%string, None)].
Proof. reflexivity. Qed.

(** ** Console input: [input_choice], [input_int] and [input()]

    The console is the sequence of events [input()] meets: a line (without
    its newline) or a Ctrl+C; the end of the list is the end of input.
    Characters of a line are bytes standing for Latin-1 code points.
    Screen output outside the round is not modelled. *)

Inductive input_event := Line (s : string) | CtrlC.

Definition stream := list input_event.

(** The exceptions of the console layer. *)
Inductive io_exn := SystemExit0 | EOFError | KeyboardInterrupt | KeyError.

Inductive io_res (A : Type) :=
| IOk (a : A) (rest : stream)
| IORaise (e : io_exn) (rest : stream).
Arguments IOk {A} a rest.
Arguments IORaise {A} e rest.

(** [str.isspace] on a Latin-1 code point. *)
Definition is_space (c : ascii) : bool :=
  let n := nat_of_ascii c in
  (Nat.leb 9 n && Nat.leb n 13) || (Nat.leb 28 n && Nat.leb n 32) ||
  Nat.eqb n 133 || Nat.eqb n 160.

Fixpoint lstrip (s : string) : string :=
  match s with
  | EmptyString => EmptyString
  | String c r => if is_space c then lstrip r else s
  end.

Fixpoint rstrip (s : string) : string :=
  match s with
  | EmptyString => EmptyString
  | String c r =>
      let r' := rstrip r in
      match r' with
      | EmptyString => if is_space c then EmptyString else String c EmptyString
      | _ => String c r'
      end
  end.

(** [s.strip()] *)
Definition py_strip (s : string) : string := rstrip (lstrip s).

(** [str.upper] on one Latin-1 code point, as code points: [ß] becomes
    [SS], [µ] and [ÿ] leave Latin-1. *)
Definition upper_char (c : ascii) : list Z :=
  let n := Z.of_nat (nat_of_ascii c) in
  if (97 <=? n) && (n <=? 122) then [n - 32]
  else if n =? 181 then [924]
  else if n =? 223 then [83; 83]
  else if (224 <=? n) && (n <=? 254) && negb (n =? 247) then [n - 32]
  else if n =? 255 then [376]
  else [n].

(** [s.upper()] *)
Fixpoint py_upper (s : string) : list Z :=
  match s with
  | EmptyString => []
  | String c r => upper_char c ++ py_upper r
  end.

(** The code points of a string. *)
Definition codes (s : string) : list Z :=
  map (fun c => Z.of_nat (nat_of_ascii c)) (list_ascii_of_string s).

Definition codes_eqb (x y : list Z) : bool :=
  if list_eq_dec Z.eq_dec x y then true else false.

(** [input_choice(prompt, valid)]: the loop, with [choice in valid]; an end
    of input or Ctrl+C raises [SystemExit(0)]. *)
Fixpoint input_choice (valid : list string) (ls : stream) : io_res string :=
  match ls with
  | [] => IORaise SystemExit0 []
  | CtrlC :: r => IORaise SystemExit0 r
  | Line raw :: r =>
      let choice := py_upper (py_strip raw) in
      match find (fun v => codes_eqb (codes v) choice) valid with
      | Some v => IOk v r
      | None => input_choice valid r
      end
  end.

Definition digit_val (c : ascii) : option Z :=
  let n := Z.of_nat (nat_of_ascii c) in
  if (48 <=? n) && (n <=? 57) then Some (n - 48) else None.

(** Decimal digits with single underscores between them, as [int()]
    reads them; [after_us]: the last character was an underscore. *)
Fixpoint digits_go (s : string) (acc : Z) (after_us : bool) : option Z :=
  match s with
  | EmptyString => if after_us then None else Some acc
  | String c r =>
      match digit_val c with
      | Some d => digits_go r (acc * 10 + d) false
      | None =>
          if Ascii.eqb c "_" && negb after_us then digits_go r acc true else None
      end
  end.

Definition parse_digits (s : string) : option Z :=
  match s with
  | String c r => match digit_val c with Some d => digits_go r d false | None => None end
  | EmptyString => None
  end.

(** The number of decimal digits in a string. *)
Fixpoint count_digits (s : string) : nat :=
  match s with
  | EmptyString => O
  | String c r => match digit_val c with Some _ => S (count_digits r) | None => count_digits r end
  end.

(** [sys.get_int_max_str_digits()] by default (Python 3.11 on, and the
    security releases 3.7.14, 3.8.14, 3.9.14, 3.10.7): [int()] of a string
    with more digits than this raises [ValueError], as [str()] of an int
    that has more does. *)
Definition INT_MAX_STR_DIGITS : nat := 4300.

(** An optional sign, then base-10 digits. *)
Definition parse_signed (s : string) : option Z :=
  match s with
  | String c r =>
      if Ascii.eqb c "+" then parse_digits r
      else if Ascii.eqb c "-" then option_map Z.opp (parse_digits r)
      else parse_digits s
  | EmptyString => None
  end.

(** [int(s)] on a string: surrounding whitespace, an optional sign, then
    base-10 digits, at most [INT_MAX_STR_DIGITS] of them; [None] where it
    raises [ValueError]. *)
Definition py_int_of_str (s : string) : option Z :=
  let s := py_strip s in
  if Nat.ltb INT_MAX_STR_DIGITS (count_digits s) then None else parse_signed s.

(** [input_int(prompt, min_value, max_value)] *)
Fixpoint input_int (min_value max_value : Z) (ls : stream) : io_res Z :=
  match ls with
  | [] => IORaise SystemExit0 []
  | CtrlC :: r => IORaise SystemExit0 r
  | Line raw :: r =>
      match py_int_of_str (py_strip raw) with
      | None => input_int min_value max_value r
      | Some value =>
          if (min_value <=? value) && (value <=? max_value) then IOk value r
          else input_int min_value max_value r
      end
  end.

(** A bare [input(...)] ("Press Enter to return to menu..."): nothing
    catches its [EOFError] or [KeyboardInterrupt]. *)
Definition input_line (ls : stream) : io_res string :=
  match ls with
  | [] => IORaise EOFError []
  | CtrlC :: r => IORaise KeyboardInterrupt r
  | Line s :: r => IOk s r
  end.

(** ** [choose_difficulty]: [(difficulty_key, max_attempts, difficulty_name)] *)

Definition difficulty_of_key (k : string) : option difficulty :=
  find (fun d => String.eqb (diff_key d) k) DIFFICULTIES.

Definition choose_difficulty (ls : stream) : io_res (string * option Z * string) :=
  match input_choice (map diff_key DIFFICULTIES) ls with
  | IORaise e r => IORaise e r
  | IOk k r =>
      match difficulty_of_key k with
      | Some d => IOk (k, max_attempts d, diff_name d) r
      | None => IORaise KeyError r
      end
  end.

(** ** [play_round] reading its guesses through [input_int(..., 1, 100)]

    The inner [read] is [input_int]'s loop, inlined so that the recursion
    is on the stream ([play_io_read] below shows it is [input_int]).  The
    [random.randint(1, 100)] draw is the argument [secret]. *)
Fixpoint play_io (max_attempts : option Z) (secret attempts : Z) (ls : stream)
    {struct ls} : io_res Z :=
  let out := match max_attempts with
             | Some m => m - attempts <=? 0
             | None => false
             end in
  if out then IOk FORFEIT ls
  else
    (fix read (ls' : stream) : io_res Z :=
       match ls' with
       | [] => IORaise SystemExit0 []
       | CtrlC :: r => IORaise SystemExit0 r
       | Line raw :: r =>
           match py_int_of_str (py_strip raw) with
           | None => read r
           | Some guess =>
               if (1 <=? guess) && (guess <=? 100) then
                 if guess =? secret then IOk (attempts + 1) r
                 else play_io max_attempts secret (attempts + 1) r
               else read r
           end
       end) ls.

(** The guesses [input_int(..., 1, 100)] returns one after the other from
    a stream, until an end of input or Ctrl+C stops it. *)
Fixpoint guesses_of (ls : stream) : list Z :=
  match ls with
  | [] => []
  | CtrlC :: _ => []
  | Line raw :: r =>
      match py_int_of_str (py_strip raw) with
      | Some v => if (1 <=? v) && (v <=? 100) then v :: guesses_of r else guesses_of r
      | None => guesses_of r
      end
  end.

(** ** [reset_highscores], [menu_loop] and [main] *)

(** What the session cannot choose: the [k]-th menu iteration draws
    [secret_at k], its save goes as [write_at k], its [os.remove] succeeds
    when [remove_ok k]; [read_file t] is what [open] and [json.load] make of
    a file holding [t]. *)
Record env := {
  secret_at : nat -> Z;
  write_at : nat -> write_outcome;
  remove_ok : nat -> bool;
  read_file : string -> file_view
}.

(** [load_highscores()] on the file as it is. *)
Definition load_from (e : env) (f : fs) : py_result table :=
  load_highscores (match f with None => FileMissing | Some t => read_file e t end).

(** [reset_highscores()]: the file after it. *)
Definition reset_highscores (e : env) (k : nat) (ls : stream) (f : fs) : io_res fs :=
  match input_choice ["Y"; "N"]%string ls with
  | IORaise ex r => IORaise ex r
  | IOk confirm r =>
      if String.eqb confirm "Y" then
        match f with
        | None => IOk None r                          (* nothing to remove *)
        | Some _ => if remove_ok e k then IOk None r
                    else IOk f r                      (* except OSError *)
        end
      else IOk f r
  end.

Inductive any_exn := EIO (e : io_exn) | EPy (e : py_exn).

Inductive menu_res :=
| MenuDone (scores : table) (f : fs) (rest : stream)
| MenuRaise (ex : any_exn) (f : fs)
| MenuOutOfFuel.

Definition MENU_CHOICES : list string := ["1"; "2"; "3"; "4"; "5"]%string.

(** The [while True] loop of [menu_loop], iteration [k] on, at most [fuel]
    iterations (each reads at least one event, see [menu_loop_enough_fuel]). *)
Fixpoint menu_go (e : env) (fuel k : nat) (scores : table) (f : fs) (ls : stream)
    : menu_res :=
  match fuel with
  | O => MenuOutOfFuel
  | S fuel' =>
      match input_choice MENU_CHOICES ls with
      | IORaise ex _ => MenuRaise (EIO ex) f
      | IOk choice r =>
          if String.eqb choice "1" then
            match choose_difficulty r with
            | IORaise ex _ => MenuRaise (EIO ex) f
            | IOk (_, max_att, diff_name) r1 =>
                match play_io max_att (secret_at e k) 0 r1 with
                | IORaise ex _ => MenuRaise (EIO ex) f
                | IOk attempts r2 =>
                    let '(res, scores', f') :=
                      if attempts <? FORFEIT
                      then update_highscore (write_at e k) f scores diff_name attempts
                      else (PyOk false, scores, f) in
                    match res with
                    | PyRaise pe => MenuRaise (EPy pe) f'
                    | PyOk _ =>
                        match input_line r2 with
                        | IORaise ex _ => MenuRaise (EIO ex) f'
                        | IOk _ r3 => menu_go e fuel' (S k) scores' f' r3
                        end
                    end
                end
            end
          else if String.eqb choice "2" || String.eqb choice "3" then
            match input_line r with
            | IORaise ex _ => MenuRaise (EIO ex) f
            | IOk _ r1 => menu_go e fuel' (S k) scores f r1
            end
          else if String.eqb choice "4" then
            match reset_highscores e k r f with
            | IORaise ex _ => MenuRaise (EIO ex) f
            | IOk f' r1 =>
                match load_from e f' with
                | PyRaise pe => MenuRaise (EPy pe) f'
                | PyOk scores' => menu_go e fuel' (S k) scores' f' r1
                end
            end
          else MenuDone scores f r
      end
  end.

Definition menu_loop (e : env) (fuel : nat) (f : fs) (ls : stream) : menu_res :=
  match load_from e f with
  | PyRaise pe => MenuRaise (EPy pe) f
  | PyOk scores => menu_go e fuel 0 scores f ls
  end.

Inductive main_res :=
| MainExit (f : fs)                 (* returned, or SystemExit caught *)
| MainCrash (ex : any_exn) (f : fs)  (* an exception escapes [main] *)
| MainOutOfFuel.

(** [main()], with enough fuel for every stream. *)
Definition main (e : env) (f : fs) (ls : stream) : main_res :=
  match menu_loop e (S (length ls)) f ls with
  | MenuDone _ f' _ => MainExit f'
  | MenuRaise (EIO SystemExit0) f' => MainExit f'
  | MenuRaise ex f' => MainCrash ex f'
  | MenuOutOfFuel => MainOutOfFuel
  end.

(** * Properties of the round *)

(** One iteration on a wrong guess when the budget is not used up: it may
    print the remaining attempts, then the direction and the proximity, and
    continues with the counter one higher. *)
Lemma play_loop_wrong_step (m : option Z) (s a g : Z) (rest : list Z) :
  g <> s ->
  match m with Some b => a < b | None => True end ->
  exists pre,
    play_loop m s a (g :: rest) =
    (pre ++ [direction_msg g s; proximity_msg (Z.abs (s - g))] ++ fst (play_loop m s (a + 1) rest),
     snd (play_loop m s (a + 1) rest)).
Proof.
  intros Hne Hm. simpl.
  assert (Hgs : (g =? s) = false) by (apply Z.eqb_neq; exact Hne).
  destruct m as [b|].
  - assert (Hr : (b - a <=? 0) = false) by (apply Z.leb_gt; lia).
    rewrite Hr, Hgs. destruct (play_loop (Some b) s (a + 1) rest) as [tr r].
    exists [MsgRemaining (b - a)]. reflexivity.
  - rewrite Hgs. destruct (play_loop None s (a + 1) rest) as [tr r].
    exists []. reflexivity.
Qed.

(** With the counter at the budget the loop stops before reading input. *)
Lemma play_loop_exhausted (b s a : Z) (inputs : list Z) :
  b <= a ->
  play_loop (Some b) s a inputs = ([MsgOutOfAttempts s], Returned FORFEIT inputs).
Proof.
  intros H. destruct inputs; simpl;
  (assert (Hr : (b - a <=? 0) = true) by (apply Z.leb_le; lia)); rewrite Hr; reflexivity.
Qed.

(** Wrong guesses under a budget [b], from counter [a]. *)
Lemma play_loop_budget_wrong (b s : Z) (gs : list Z) :
  forall a, Forall (fun g => g <> s) gs -> a <= b ->
  (Z.of_nat (length gs) < b - a ->
     snd (play_loop (Some b) s a gs) = Blocked (a + Z.of_nat (length gs))) /\
  (b - a <= Z.of_nat (length gs) ->
     exists tr, play_loop (Some b) s a gs =
       (tr ++ [MsgOutOfAttempts s], Returned FORFEIT (skipn (Z.to_nat (b - a)) gs))).
Proof.
  induction gs as [|g gs IH]; intros a Hall Hab; simpl length.
  - split.
    + intros Hlt. simpl.
      assert (Hr : (b - a <=? 0) = false) by (apply Z.leb_gt; lia).
      rewrite Hr. simpl. f_equal. lia.
    + intros Hle. exists []. rewrite play_loop_exhausted by lia.
      rewrite skipn_nil. reflexivity.
  - inversion Hall as [|? ? Hg Hrest]; subst.
    destruct (Z_lt_le_dec a b) as [Hlt|Hge].
    + destruct (play_loop_wrong_step (Some b) s a g gs Hg Hlt) as [pre Heq].
      destruct (IH (a + 1) Hrest ltac:(lia)) as [IH1 IH2].
      rewrite Heq. simpl snd. split.
      * intros Hlen. rewrite IH1 by lia. f_equal. lia.
      * intros Hlen. destruct IH2 as [tr Htr]; [lia|].
        rewrite Htr. simpl fst.
        exists (pre ++ [direction_msg g s; proximity_msg (Z.abs (s - g))] ++ tr).
        replace (Z.to_nat (b - a)) with (S (Z.to_nat (b - (a + 1)))) by lia.
        simpl skipn. rewrite <- !app_assoc. reflexivity.
    + split.
      * intros Hlen. lia.
      * intros _. exists []. rewrite play_loop_exhausted by lia.
        replace (Z.to_nat (b - a)) with O by lia. reflexivity.
Qed.

(** ** C1 *)

(** C1: on a difficulty with budget [B], a round fed only wrong guesses
    in [1,100] accepts them one by one, the counter being the number of
    guesses read, while fewer than [B] were given; once [B] were read, the
    next loop iteration (the one that would prompt for guess [B+1]) reports
    "Out of attempts" and returns the sentinel without reading anything or
    moving the counter.  So exactly [B] guesses are consumed. *)
Theorem play_round_budget_exhaustion (d : difficulty) (B s : Z) (gs : list Z) :
  max_attempts d = Some B ->
  Forall (fun g => 1 <= g <= 100 /\ g <> s) gs ->
  (Z.of_nat (length gs) < B ->
     snd (play_round (max_attempts d) s gs) = Blocked (Z.of_nat (length gs))) /\
  (B <= Z.of_nat (length gs) ->
     exists tr, play_round (max_attempts d) s gs =
       (tr ++ [MsgOutOfAttempts s], Returned FORFEIT (skipn (Z.to_nat B) gs))) /\
  (forall rest, play_loop (max_attempts d) s B rest =
     ([MsgOutOfAttempts s], Returned FORFEIT rest)).
Proof.
  intros Hd Hall. rewrite Hd. unfold play_round.
  assert (Hb : 0 <= B) by (destruct d; simpl in Hd; inversion Hd; lia).
  assert (Hw : Forall (fun g => g <> s) gs)
    by (eapply Forall_impl; [|exact Hall]; intros g [_ H]; exact H).
  destruct (play_loop_budget_wrong B s gs 0 Hw Hb) as [H1 H2].
  rewrite Z.sub_0_r in H1, H2.
  split; [|split].
  - intros Hlt. rewrite H1 by lia. reflexivity.
  - exact H2.
  - intros rest. apply play_loop_exhausted. lia.
Qed.

Lemma play_round_budget_exhaustion_witness :
  max_attempts Hard = Some 7 /\
  Forall (fun g => 1 <= g <= 100 /\ g <> 50) [10; 90; 30; 49; 51; 1; 100; 60] /\
  ((Z.of_nat (length [10; 90; 30; 49; 51; 1; 100; 60]) < 7 ->
     snd (play_round (max_attempts Hard) 50 [10; 90; 30; 49; 51; 1; 100; 60]) =
     Blocked (Z.of_nat (length [10; 90; 30; 49; 51; 1; 100; 60]))) /\
   (7 <= Z.of_nat (length [10; 90; 30; 49; 51; 1; 100; 60]) ->
     exists tr, play_round (max_attempts Hard) 50 [10; 90; 30; 49; 51; 1; 100; 60] =
       (tr ++ [MsgOutOfAttempts 50],
        Returned FORFEIT (skipn (Z.to_nat 7) [10; 90; 30; 49; 51; 1; 100; 60]))) /\
   (forall rest, play_loop (max_attempts Hard) 50 7 rest =
     ([MsgOutOfAttempts 50], Returned FORFEIT rest))).
Proof.
  assert (Hall : Forall (fun g => 1 <= g <= 100 /\ g <> 50) [10; 90; 30; 49; 51; 1; 100; 60])
    by (repeat constructor; lia).
  split; [reflexivity|]. split; [exact Hall|].
  exact (play_round_budget_exhaustion Hard 7 50 _ eq_refl Hall).
Defined.

(** ** C6 and C7: the feedback on a wrong guess *)

(** C6: a wrong guess [g] in [1,100] against a secret in [1,100], in any
    iteration that reads it, makes the loop print the proximity of
    [d = |secret - g|], which lies in [1,99]; that message is "Very close"
    exactly when [d <= 5], "Getting warm" exactly when [6 <= d <= 10], and
    "Cold" exactly when [d >= 11], and it is always one of the three. *)
Theorem proximity_partition (m : option Z) (s a g : Z) (rest : list Z) :
  1 <= s <= 100 -> 1 <= g <= 100 -> g <> s ->
  match m with Some b => a < b | None => True end ->
  let d := Z.abs (s - g) in
  (exists pre,
     play_loop m s a (g :: rest) =
     (pre ++ [direction_msg g s; proximity_msg d] ++ fst (play_loop m s (a + 1) rest),
      snd (play_loop m s (a + 1) rest))) /\
  1 <= d <= 99 /\
  (proximity_msg d = MsgVeryClose <-> d <= 5) /\
  (proximity_msg d = MsgGettingWarm <-> 6 <= d <= 10) /\
  (proximity_msg d = MsgCold <-> 11 <= d) /\
  (proximity_msg d = MsgVeryClose \/ proximity_msg d = MsgGettingWarm \/
   proximity_msg d = MsgCold).
Proof.
  intros Hs Hg Hne Hm d.
  split; [exact (play_loop_wrong_step m s a g rest Hne Hm)|].
  split; [unfold d; lia|].
  unfold proximity_msg.
  destruct (Z.leb_spec d 5); [|destruct (Z.leb_spec d 10)];
    repeat split; intros; try discriminate; try lia; auto.
Qed.

Lemma proximity_partition_witness :
  let d := Z.abs (50 - 44) in
  (exists pre,
     play_loop (Some 10) 50 3 (44 :: [50]) =
     (pre ++ [direction_msg 44 50; proximity_msg d] ++ fst (play_loop (Some 10) 50 (3 + 1) [50]),
      snd (play_loop (Some 10) 50 (3 + 1) [50]))) /\
  1 <= d <= 99 /\
  (proximity_msg d = MsgVeryClose <-> d <= 5) /\
  (proximity_msg d = MsgGettingWarm <-> 6 <= d <= 10) /\
  (proximity_msg d = MsgCold <-> 11 <= d) /\
  (proximity_msg d = MsgVeryClose \/ proximity_msg d = MsgGettingWarm \/
   proximity_msg d = MsgCold).
Proof.
  apply (proximity_partition (Some 10) 50 3 44 [50]); simpl; lia.
Defined.

(** C7: a wrong guess [g], in any iteration that reads it, makes the
    loop print a direction; it is "Too Low" exactly when [g < secret] and
    "Too High" exactly when [g > secret], and it is always exactly one of
    the two. *)
Theorem direction_partition (m : option Z) (s a g : Z) (rest : list Z) :
  g <> s ->
  match m with Some b => a < b | None => True end ->
  (exists pre,
     play_loop m s a (g :: rest) =
     (pre ++ [direction_msg g s; proximity_msg (Z.abs (s - g))] ++
        fst (play_loop m s (a + 1) rest),
      snd (play_loop m s (a + 1) rest))) /\
  (direction_msg g s = MsgTooLow <-> g < s) /\
  (direction_msg g s = MsgTooHigh <-> g > s) /\
  (direction_msg g s = MsgTooLow \/ direction_msg g s = MsgTooHigh) /\
  ~ (direction_msg g s = MsgTooLow /\ direction_msg g s = MsgTooHigh).
Proof.
  intros Hne Hm.
  split; [exact (play_loop_wrong_step m s a g rest Hne Hm)|].
  unfold direction_msg.
  destruct (Z.ltb_spec g s);
    repeat split; intros; try discriminate; try lia; auto;
    intros [H1 H2]; discriminate.
Qed.

Lemma direction_partition_witness :
  (exists pre,
     play_loop None 50 0 (70 :: [50]) =
     (pre ++ [direction_msg 70 50; proximity_msg (Z.abs (50 - 70))] ++
        fst (play_loop None 50 (0 + 1) [50]),
      snd (play_loop None 50 (0 + 1) [50]))) /\
  (direction_msg 70 50 = MsgTooLow <-> 70 < 50) /\
  (direction_msg 70 50 = MsgTooHigh <-> 70 > 50) /\
  (direction_msg 70 50 = MsgTooLow \/ direction_msg 70 50 = MsgTooHigh) /\
  ~ (direction_msg 70 50 = MsgTooLow /\ direction_msg 70 50 = MsgTooHigh).
Proof.
  apply (direction_partition None 50 0 70 [50]); simpl; [lia | exact I].
Defined.

(** * Properties of the highscore table *)

Lemma dict_lookup_set_same (d : table) (k : string) (v : option num) :
  dict_lookup (dict_set d k v) k = Some v.
Proof.
  induction d as [|[k' v'] r IH]; simpl.
  - rewrite String.eqb_refl. reflexivity.
  - destruct (String.eqb k k') eqn:E; simpl.
    + rewrite E. reflexivity.
    + rewrite E. exact IH.
Qed.

Lemma dict_lookup_set_other (d : table) (k k' : string) (v : option num) :
  k' <> k -> dict_lookup (dict_set d k v) k' = dict_lookup d k'.
Proof.
  intros Hne. induction d as [|[k0 v0] r IH]; simpl.
  - destruct (String.eqb k' k) eqn:E; [apply String.eqb_eq in E; contradiction|reflexivity].
  - destruct (String.eqb k k0) eqn:E; simpl.
    + apply String.eqb_eq in E. subst k0.
      destruct (String.eqb k' k) eqn:E'; [apply String.eqb_eq in E'; contradiction|reflexivity].
    + rewrite IH. reflexivity.
Qed.

(** [write_file] raises nothing but [OSError], which [save_highscores]
    catches. *)
Lemma save_highscores_fst (w : write_outcome) (t : table) (f : fs) :
  fst (save_highscores w t f) = PyOk PyNone.
Proof. destruct w; reflexivity. Qed.

Lemma save_highscores_snd (w : write_outcome) (t : table) (f : fs) :
  snd (save_highscores w t f) = snd (write_file w (json_dump t) f).
Proof. destruct w; reflexivity. Qed.

Definition improves (best : option Z) (attempts : Z) : bool :=
  match best with None => true | Some b => attempts <? b end.

Lemma update_highscore_eq (w : write_outcome) (f : fs) (scores : table)
    (name : string) (a : Z) :
  update_highscore w f scores name a =
  if improves (scores_get scores name) a then
    (PyOk true, dict_set scores name (Some (NInt a)),
     snd (write_file w (json_dump (dict_set scores name (Some (NInt a)))) f))
  else (PyOk false, scores, f).
Proof.
  unfold update_highscore, improves.
  destruct (match scores_get scores name with Some b => a <? b | None => true end);
    [|reflexivity].
  rewrite <- save_highscores_snd.
  pose proof (save_highscores_fst w (dict_set scores name (Some (NInt a))) f) as H.
  destruct (save_highscores w (dict_set scores name (Some (NInt a))) f) as [r f'].
  simpl in H |- *. subst r. reflexivity.
Qed.

(** Merging a stored best with the least of later attempts. *)
Definition best_merge (x y : option Z) : option Z :=
  match x, y with
  | None, _ => y
  | _, None => x
  | Some p, Some q => Some (Z.min p q)
  end.

Lemma scores_get_after_update (w : write_outcome) (f : fs) (scores : table)
    (name : string) (a : Z) :
  scores_get (snd (fst (update_highscore w f scores name a))) name =
  best_merge (scores_get scores name) (Some a).
Proof.
  rewrite update_highscore_eq. unfold improves.
  destruct (scores_get scores name) as [b|] eqn:E; simpl.
  - destruct (Z.ltb_spec a b); simpl.
    + unfold scores_get. rewrite dict_lookup_set_same. simpl. f_equal. lia.
    + rewrite E. f_equal. lia.
  - unfold scores_get. rewrite dict_lookup_set_same. reflexivity.
Qed.

Lemma scores_lookup_after_update_other (w : write_outcome) (f : fs) (scores : table)
    (name k : string) (a : Z) :
  k <> name ->
  dict_lookup (snd (fst (update_highscore w f scores name a))) k = dict_lookup scores k.
Proof.
  intros Hne. rewrite update_highscore_eq.
  destruct (improves (scores_get scores name) a); simpl; [|reflexivity].
  apply dict_lookup_set_other. exact Hne.
Qed.

Lemma run_updates_best (name : string) (ops : list (write_outcome * string * Z)) :
  forall scores f,
  scores_get (fst (run_updates ops scores f)) name =
  best_merge (scores_get scores name) (list_min (attempts_for name ops)).
Proof.
  unfold attempts_for.
  induction ops as [|[[w n] a] ops IH]; intros scores f; simpl.
  - destruct (scores_get scores name); reflexivity.
  - pose proof (scores_get_after_update w f scores n a) as Hget.
    destruct (update_highscore w f scores n a) as [[r s'] f'] eqn:E.
    rewrite IH. simpl in Hget.
    destruct (String.eqb n name) eqn:En; simpl.
    + apply String.eqb_eq in En. subst n. rewrite Hget.
      destruct (scores_get scores name), (list_min (map snd (filter _ ops)));
        simpl; f_equal; lia.
    + assert (Hne : name <> n) by (intro; subst; rewrite String.eqb_refl in En; discriminate).
      pose proof (scores_lookup_after_update_other w f scores n name a Hne) as Hl.
      rewrite E in Hl. simpl in Hl.
      unfold scores_get at 1. rewrite Hl. reflexivity.
Qed.

(** ** C2 *)

(** C2: starting from a table with no record for [name], after any sequence
    of [update_highscore] calls the stored best for [name] is the least of
    the attempts passed for [name] (absent when none was).  Each single
    call returns [True] exactly when there is no entry or the attempts are
    strictly below it, and then the entry holds the attempts; otherwise it
    returns [False] and leaves the table and the file as they were. *)
Theorem update_highscore_keeps_minimum (name : string)
    (ops : list (write_outcome * string * Z)) (scores : table) (f : fs) :
  scores_get scores name = None ->
  scores_get (fst (run_updates ops scores f)) name = list_min (attempts_for name ops) /\
  (forall w f0 sc n a r s' f',
     update_highscore w f0 sc n a = (r, s', f') ->
     (r = PyOk true \/ r = PyOk false) /\
     (r = PyOk true <->
        scores_get sc n = None \/ exists b, scores_get sc n = Some b /\ a < b) /\
     (r = PyOk true -> s' = dict_set sc n (Some (NInt a)) /\ scores_get s' n = Some a) /\
     (r = PyOk false -> s' = sc /\ f' = f0)).
Proof.
  intros Hnone. split.
  - rewrite run_updates_best, Hnone. reflexivity.
  - intros w f0 sc n a r s' f' Hu.
    rewrite update_highscore_eq in Hu. unfold improves in Hu.
    destruct (scores_get sc n) as [b|] eqn:E.
    + destruct (Z.ltb_spec a b) as [Hlt|Hge]; inversion Hu; subst.
      * repeat split; auto; try discriminate.
        -- intros _. right. exists b. auto.
        -- unfold scores_get. rewrite dict_lookup_set_same. reflexivity.
      * repeat split; auto; try discriminate.
        intros [H|[b' [H1 H2]]]; [discriminate|]. inversion H1; subst. lia.
    + inversion Hu; subst. repeat split; auto; try discriminate.
      unfold scores_get. rewrite dict_lookup_set_same. reflexivity.
Qed.

Lemma update_highscore_keeps_minimum_witness :
  scores_get default_scores "Easy" = None /\
  scores_get (fst (run_updates [(WriteOk, "Easy", 9); (OpenFails, "Hard", 3);
                                (WriteOk, "Easy", 4); (WriteOk, "Easy", 6)]%string
                               default_scores None)) "Easy"
  = list_min (attempts_for "Easy" [(WriteOk, "Easy", 9); (OpenFails, "Hard", 3);
                                   (WriteOk, "Easy", 4); (WriteOk, "Easy", 6)]%string).
Proof.
  assert (H : scores_get default_scores "Easy" = None) by reflexivity.
  split; [exact H|].
  exact (proj1 (update_highscore_keeps_minimum "Easy" _ default_scores None H)).
Defined.

(** ** C10 *)

(** C10: [update_highscore] changes no entry but the one for the given
    name (every other key looks up as before), and when it returns [False]
    it has not called [save_highscores]: the table and the file are as they
    were. *)
Theorem update_highscore_frame (w : write_outcome) (f : fs) (scores : table)
    (name : string) (a : Z) (r : py_result bool) (s' : table) (f' : fs) :
  update_highscore w f scores name a = (r, s', f') ->
  (forall k, k <> name -> dict_lookup s' k = dict_lookup scores k) /\
  (r = PyOk false -> s' = scores /\ f' = f).
Proof.
  intros Hu. split.
  - intros k Hk. pose proof (scores_lookup_after_update_other w f scores name k a Hk) as H.
    rewrite Hu in H. exact H.
  - intros Hr. subst r. rewrite update_highscore_eq in Hu.
    destruct (improves (scores_get scores name) a); inversion Hu; auto.
Qed.

Lemma update_highscore_frame_witness :
  update_highscore WriteOk None [("Easy", Some (NInt 5)); ("Normal", Some (NInt 8)); ("Hard", None)]%string
    "Easy" 7 = (PyOk false, [("Easy", Some (NInt 5)); ("Normal", Some (NInt 8)); ("Hard", None)]%string, None) /\
  (forall k, k <> "Easy"%string ->
     dict_lookup [("Easy", Some (NInt 5)); ("Normal", Some (NInt 8)); ("Hard", None)]%string k =
     dict_lookup [("Easy", Some (NInt 5)); ("Normal", Some (NInt 8)); ("Hard", None)]%string k) /\
  (PyOk false = PyOk false ->
     [("Easy", Some (NInt 5)); ("Normal", Some (NInt 8)); ("Hard", None)]%string =
     [("Easy", Some (NInt 5)); ("Normal", Some (NInt 8)); ("Hard", None)]%string /\ @None string = None).
Proof.
  assert (Hu : update_highscore WriteOk None
                 [("Easy", Some (NInt 5)); ("Normal", Some (NInt 8)); ("Hard", None)]%string "Easy" 7 =
               (PyOk false, [("Easy", Some (NInt 5)); ("Normal", Some (NInt 8)); ("Hard", None)]%string, None))
    by reflexivity.
  split; [exact Hu|].
  exact (update_highscore_frame _ _ _ _ _ _ _ _ Hu).
Defined.

(** * How a round ends, and the menu *)

Lemma play_loop_repeat_wrong (s a g : Z) (rest : list Z) (n : nat) :
  g <> s ->
  exists tr0,
    play_loop None s a (repeat g n ++ rest) =
    (tr0 ++ fst (play_loop None s (a + Z.of_nat n) rest),
     snd (play_loop None s (a + Z.of_nat n) rest)).
Proof.
  intros Hne. revert a. induction n as [|n IH]; intros a.
  - exists []. simpl. rewrite Z.add_0_r. destruct (play_loop None s a rest); reflexivity.
  - simpl repeat. simpl app.
    destruct (play_loop_wrong_step None s a g (repeat g n ++ rest) Hne I) as [pre Hp].
    destruct (IH (a + 1)) as [tr0 Htr]. rewrite Hp, Htr. simpl.
    exists (pre ++ [direction_msg g s; proximity_msg (Z.abs (s - g))] ++ tr0).
    replace (a + 1 + Z.of_nat n) with (a + Z.pos (Pos.of_succ_nat n)) by lia.
    rewrite <- !app_assoc. reflexivity.
Qed.

(** A loop that returned either printed "Correct!" last and returned a
    count above its starting counter, within the budget, or ran out of
    attempts and returned the sentinel. *)
Lemma play_loop_returned (m : option Z) (s : Z) (gs : list Z) :
  forall a tr v rest,
  play_loop m s a gs = (tr, Returned v rest) ->
  (exists tr0, tr = tr0 ++ [MsgCorrect v] /\ a < v /\
     forall b, m = Some b -> v <= b) \/
  (exists tr0, tr = tr0 ++ [MsgOutOfAttempts s] /\ v = FORFEIT).
Proof.
  induction gs as [|g gs IH]; intros a tr v rest H.
  - destruct m as [b|]; simpl in H.
    + destruct (b - a <=? 0); inversion H; subst.
      right. exists []. auto.
    + discriminate.
  - destruct m as [b|]; simpl in H.
    + destruct (b - a <=? 0) eqn:Ex.
      * inversion H; subst. right. exists []. auto.
      * apply Z.leb_gt in Ex.
        destruct (g =? s).
        -- inversion H; subst. left. exists [MsgRemaining (b - a)].
           repeat split; try lia. intros b' Hb. inversion Hb; subst. lia.
        -- destruct (play_loop (Some b) s (a + 1) gs) as [tr' r'] eqn:E.
           inversion H; subst.
           destruct (IH (a + 1) tr' v rest E) as [[tr0 [-> [Hv Hb]]]|[tr0 [-> Hv]]].
           ++ left. exists ([MsgRemaining (b - a); direction_msg g s;
                           proximity_msg (Z.abs (s - g))] ++ tr0).
              split; [rewrite <- app_assoc; reflexivity|]. split; [lia|exact Hb].
           ++ right. exists ([MsgRemaining (b - a); direction_msg g s;
                            proximity_msg (Z.abs (s - g))] ++ tr0).
              split; [rewrite <- app_assoc; reflexivity|exact Hv].
    + destruct (g =? s).
      * inversion H; subst. left. exists []. repeat split; try lia. discriminate.
      * destruct (play_loop None s (a + 1) gs) as [tr' r'] eqn:E.
        inversion H; subst.
        destruct (IH (a + 1) tr' v rest E) as [[tr0 [-> [Hv Hb]]]|[tr0 [-> Hv]]].
        -- left. exists ([direction_msg g s; proximity_msg (Z.abs (s - g))] ++ tr0).
           split; [rewrite <- app_assoc; reflexivity|]. split; [lia|exact Hb].
        -- right. exists ([direction_msg g s; proximity_msg (Z.abs (s - g))] ++ tr0).
           split; [rewrite <- app_assoc; reflexivity|exact Hv].
Qed.

Lemma menu_after_round_eq (w : write_outcome) (f : fs) (scores : table)
    (d : difficulty) (v : Z) :
  fst (fst (menu_after_round w f scores d v)) =
  if v <? FORFEIT then Some (fst (fst (update_highscore w f scores (diff_name d) v)))
  else None.
Proof.
  unfold menu_after_round. destruct (v <? FORFEIT); [|reflexivity].
  destruct (update_highscore w f scores (diff_name d) v) as [[r s'] f']. reflexivity.
Qed.

Lemma FORFEIT_value : FORFEIT = 1000000000.
Proof. reflexivity. Qed.

(** ** Won rounds *)

Lemma last_app_cons {A} (l l' : list A) (x d : A) :
  last (l ++ x :: l') d = last (x :: l') d.
Proof.
  induction l as [|y l IH]; [reflexivity|].
  simpl app. rewrite <- IH. destruct l as [|z l]; simpl; [destruct l'|]; reflexivity.
Qed.

Lemma play_loop_won (m : option Z) (s : Z) (gs : list Z) :
  forall a tr v rest,
  play_loop m s a gs = (tr, Returned v rest) -> In (MsgCorrect v) tr ->
  exists wrong, gs = wrong ++ s :: rest /\ Forall (fun g => g <> s) wrong /\
    v = a + Z.of_nat (length wrong) + 1 /\ last tr MsgCold = MsgCorrect v.
Proof.
  induction gs as [|g gs IH]; intros a tr v rest Hrun Hin.
  - simpl in Hrun. destruct m as [b|].
    + destruct (b - a <=? 0); inversion Hrun; subst;
        simpl in Hin; destruct Hin as [Hin|[]]; discriminate.
    + discriminate.
  - cbn [play_loop] in Hrun.
    set (pre := match m with Some b => if b - a <=? 0 then _ else _ | None => _ end) in Hrun.
    assert (Hpre : (snd pre = true /\ fst pre = [MsgOutOfAttempts s]) \/
                   (snd pre = false /\ forall x, In x (fst pre) -> exists k, x = MsgRemaining k)).
    { subst pre. destruct m as [b|]; [destruct (b - a <=? 0)|]; simpl.
      - left; auto.
      - right; split; [reflexivity|]. intros x [<-|[]]. eauto.
      - right; split; [reflexivity|]. intros x []. }
    destruct pre as [pr out]. simpl in Hpre.
    destruct Hpre as [[-> ->]|[-> Hpr]].
    + inversion Hrun; subst. destruct Hin as [Hin|[]]. discriminate.
    + destruct (Z.eqb_spec g s) as [->|Hne].
      * inversion Hrun; subst. exists []. repeat split; auto.
        -- simpl. lia.
        -- rewrite last_app_cons. reflexivity.
      * destruct (play_loop m s (a + 1) gs) as [tr' r'] eqn:Hrec.
        inversion Hrun; subst.
        apply in_app_or in Hin as [Hin|Hin].
        { destruct (Hpr _ Hin) as [k Hk]. discriminate. }
        destruct Hin as [Hin|[Hin|Hin]].
        { unfold direction_msg in Hin. destruct (g <? s); discriminate. }
        { unfold proximity_msg in Hin. repeat destruct (_ <=? _); discriminate. }
        destruct (IH (a + 1) tr' v rest Hrec Hin) as [wrong [-> [Hw [-> Hlast]]]].
        exists (g :: wrong). split; [reflexivity|]. split; [constructor; assumption|].
        split; [simpl length; lia|].
        destruct tr' as [|t tr'']; [destruct Hin|].
           simpl app. rewrite last_app_cons. simpl. destruct tr''; exact Hlast.
Qed.

(** ** C5 *)

(** C5, as the code has it: a round that ran out of attempts printed
    "Out of attempts" and returned the sentinel [10**9], and the menu then
    does not call [update_highscore]; a won round returned its attempt count
    [v >= 1], the number of guesses it read (the wrong ones, then the
    secret), and the menu calls [update_highscore] with it exactly when
    [v < 10**9], which holds for every won round on a difficulty with a
    budget (Normal, Hard).  On Easy a round won at the [n]-th guess returns
    [n], so one won at or after the [10**9]-th guess is not recorded.  A
    returned round ended in one of the two ways. *)
Theorem forfeit_never_reaches_update (d : difficulty) (s : Z) (gs : list Z)
    (tr : list msg) (v : Z) (rest : list Z) (w : write_outcome) (f : fs)
    (scores : table) :
  play_round (max_attempts d) s gs = (tr, Returned v rest) ->
  ((exists tr0, tr = tr0 ++ [MsgCorrect v]) \/
   (exists tr0, tr = tr0 ++ [MsgOutOfAttempts s])) /\
  ((exists tr0, tr = tr0 ++ [MsgOutOfAttempts s]) ->
     v = FORFEIT /\ fst (fst (menu_after_round w f scores d v)) = None) /\
  ((exists tr0, tr = tr0 ++ [MsgCorrect v]) ->
     1 <= v /\
     (exists wrong, gs = wrong ++ s :: rest /\ Forall (fun g => g <> s) wrong /\
        v = Z.of_nat (length wrong) + 1) /\
     (fst (fst (menu_after_round w f scores d v)) =
        Some (fst (fst (update_highscore w f scores (diff_name d) v))) <-> v < FORFEIT) /\
     (forall B, max_attempts d = Some B -> v <= B /\ v < FORFEIT)).
Proof.
  intros H. unfold play_round in H.
  destruct (play_loop_returned _ _ _ 0 tr v rest H)
    as [[tr0 [Htr [Hv Hb]]]|[tr0 [Htr Hv]]].
  - split; [left; eauto|]. split.
    + intros [tr1 Htr1]. rewrite Htr in Htr1.
      apply app_inj_tail in Htr1. destruct Htr1 as [_ Hc]. discriminate.
    + intros _. split; [lia|]. split.
      { destruct (play_loop_won _ _ _ 0 tr v rest H) as [wrong [Hg [Hw [Hvl _]]]].
        - rewrite Htr. apply in_or_app. right. left. reflexivity.
        - exists wrong. split; [exact Hg|]. split; [exact Hw|]. lia. }
      rewrite menu_after_round_eq. split; [split|].
      * destruct (Z.ltb_spec v FORFEIT); [auto|discriminate].
      * intros Hlt. apply Z.ltb_lt in Hlt. rewrite Hlt. reflexivity.
      * intros B HB. specialize (Hb B HB).
        destruct d; simpl in HB; inversion HB; subst; rewrite FORFEIT_value; lia.
  - subst v. split; [right; eauto|]. split.
    + intros _. split; [reflexivity|]. rewrite menu_after_round_eq.
      rewrite Z.ltb_irrefl. reflexivity.
    + intros [tr1 Htr1]. rewrite Htr in Htr1.
      apply app_inj_tail in Htr1. destruct Htr1 as [_ Hc]. discriminate.
Qed.

Lemma forfeit_never_reaches_update_witness :
  play_round (max_attempts Normal) 50 [10; 90; 50] =
    ([MsgRemaining 10; MsgTooLow; MsgCold; MsgRemaining 9; MsgTooHigh; MsgCold;
      MsgRemaining 8; MsgCorrect 3], Returned 3 []) /\
  (((exists tr0, [MsgRemaining 10; MsgTooLow; MsgCold; MsgRemaining 9; MsgTooHigh; MsgCold;
      MsgRemaining 8; MsgCorrect 3] = tr0 ++ [MsgCorrect 3]) \/
    (exists tr0, [MsgRemaining 10; MsgTooLow; MsgCold; MsgRemaining 9; MsgTooHigh; MsgCold;
      MsgRemaining 8; MsgCorrect 3] = tr0 ++ [MsgOutOfAttempts 50])) /\
   ((exists tr0, [MsgRemaining 10; MsgTooLow; MsgCold; MsgRemaining 9; MsgTooHigh; MsgCold;
      MsgRemaining 8; MsgCorrect 3] = tr0 ++ [MsgOutOfAttempts 50]) ->
     3 = FORFEIT /\ fst (fst (menu_after_round WriteOk None default_scores Normal 3)) = None) /\
   ((exists tr0, [MsgRemaining 10; MsgTooLow; MsgCold; MsgRemaining 9; MsgTooHigh; MsgCold;
      MsgRemaining 8; MsgCorrect 3] = tr0 ++ [MsgCorrect 3]) ->
     1 <= 3 /\
     (exists wrong, [10; 90; 50] = wrong ++ 50 :: [] /\ Forall (fun g => g <> 50) wrong /\
        3 = Z.of_nat (length wrong) + 1) /\
     (fst (fst (menu_after_round WriteOk None default_scores Normal 3)) =
        Some (fst (fst (update_highscore WriteOk None default_scores (diff_name Normal) 3)))
        <-> 3 < FORFEIT) /\
     (forall B, max_attempts Normal = Some B -> 3 <= B /\ 3 < FORFEIT))).
Proof.
  assert (H : play_round (max_attempts Normal) 50 [10; 90; 50] =
    ([MsgRemaining 10; MsgTooLow; MsgCold; MsgRemaining 9; MsgTooHigh; MsgCold;
      MsgRemaining 8; MsgCorrect 3], Returned 3 [])) by reflexivity.
  split; [exact H|].
  exact (forfeit_never_reaches_update Normal 50 _ _ 3 [] WriteOk None default_scores H).
Defined.

(** C5 fails as stated: on Easy (no budget) a round won at the
    [10**9]-th guess returns [10**9], the sentinel itself, and the menu does
    not call [update_highscore] for this won round. *)
Lemma easy_win_at_sentinel_not_recorded :
  exists gs tr0,
    play_round (max_attempts Easy) 50 gs =
      (tr0 ++ [MsgCorrect FORFEIT], Returned FORFEIT []) /\
    fst (fst (menu_after_round WriteOk None default_scores Easy FORFEIT)) = None.
Proof.
  remember (Z.to_nat (FORFEIT - 1)) as n eqn:Hn.
  assert (Hz : Z.of_nat n = FORFEIT - 1)
    by (subst n; apply Z2Nat.id; rewrite FORFEIT_value; lia).
  exists (repeat 1 n ++ [50]).
  destruct (play_loop_repeat_wrong 50 0 1 [50] n ltac:(lia)) as [tr0 Htr].
  unfold play_round. simpl max_attempts. rewrite Htr, Hz.
  exists tr0. split; [|reflexivity].
  replace (0 + (FORFEIT - 1)) with (FORFEIT - 1) by lia.
  rewrite FORFEIT_value. reflexivity.
Qed.

(** * Saving *)

(** ** C8 *)

(** C8, as the code has it: [save_highscores] returns [None] whatever
    happens; an [OSError] from the open or the writes is swallowed, never
    propagated; the file is what the write left, which is the serialized
    full table when the write succeeds. *)
Theorem save_highscores_returns_none (w : write_outcome) (t : table) (f : fs) :
  fst (save_highscores w t f) = PyOk PyNone /\
  snd (save_highscores w t f) = snd (write_file w (json_dump t) f) /\
  snd (save_highscores WriteOk t f) = Some (json_dump t).
Proof.
  split; [apply save_highscores_fst|].
  split; [apply save_highscores_snd|reflexivity].
Qed.

(** C8 fails as stated: there is no boolean, success and failure both
    return [None]. *)
Lemma save_highscores_no_boolean :
  fst (save_highscores WriteOk default_scores None) <> PyOk (PyBool true) /\
  fst (save_highscores OpenFails default_scores None) <> PyOk (PyBool false).
Proof. split; discriminate. Qed.

(** ** C9 *)

(** C9, as the code has it: the save of a successful update writes the file
    in place, with no temporary file: when the open fails the file is
    untouched, when it succeeds the file is truncated and then holds the
    whole new table if the writes succeed, or only the first [n] characters
    of it if they fail after [n] (all of it when [n] reaches its length).
    An update returning [False] writes nothing. *)
Theorem update_highscore_write_in_place (w : write_outcome) (f : fs) (scores : table)
    (name : string) (a : Z) (r : py_result bool) (s' : table) (f' : fs) :
  update_highscore w f scores name a = (r, s', f') ->
  (r = PyOk false /\ f' = f) \/
  (r = PyOk true /\
   f' = match w with
        | WriteOk => Some (json_dump s')
        | OpenFails => f
        | WriteFailsAfter n => Some (substring 0 n (json_dump s'))
        end).
Proof.
  intros Hu. rewrite update_highscore_eq in Hu.
  destruct (improves (scores_get scores name) a); inversion Hu; subst.
  - right. split; [reflexivity|]. destruct w; reflexivity.
  - left. auto.
Qed.

Definition c9_old : table := [("Easy", Some (NInt 5)); ("Normal", None); ("Hard", None)]%string.

Lemma update_highscore_write_in_place_witness :
  update_highscore (WriteFailsAfter 12) (Some (json_dump c9_old)) c9_old "Easy" 3 =
    (PyOk true, [("Easy", Some (NInt 3)); ("Normal", None); ("Hard", None)]%string,
     Some (substring 0 12 (json_dump [("Easy", Some (NInt 3)); ("Normal", None); ("Hard", None)]%string))) /\
  ((PyOk true = PyOk false /\
    Some (substring 0 12 (json_dump [("Easy", Some (NInt 3)); ("Normal", None); ("Hard", None)]%string))
      = Some (json_dump c9_old)) \/
   (PyOk true = PyOk true /\
    Some (substring 0 12 (json_dump [("Easy", Some (NInt 3)); ("Normal", None); ("Hard", None)]%string)) =
      Some (substring 0 12 (json_dump [("Easy", Some (NInt 3)); ("Normal", None); ("Hard", None)]%string)))).
Proof.
  assert (Hu : update_highscore (WriteFailsAfter 12) (Some (json_dump c9_old)) c9_old "Easy" 3 =
    (PyOk true, [("Easy", Some (NInt 3)); ("Normal", None); ("Hard", None)]%string,
     Some (substring 0 12 (json_dump [("Easy", Some (NInt 3)); ("Normal", None); ("Hard", None)]%string))))
    by reflexivity.
  split; [exact Hu|].
  exact (update_highscore_write_in_place _ _ _ _ _ _ _ _ Hu).
Defined.

(** C9 fails as stated: a new Easy record whose write fails after 12
    characters leaves a file that is neither the prior content nor the new
    table. *)
Lemma interrupted_save_leaves_partial_file :
  let '(r, s', f') :=
    update_highscore (WriteFailsAfter 12) (Some (json_dump c9_old)) c9_old "Easy" 3 in
  r = PyOk true /\ f' <> Some (json_dump c9_old) /\ f' <> Some (json_dump s').
Proof. vm_compute. split; [reflexivity|split; discriminate]. Qed.

(** * Loading *)

(** ** C3 *)

(** C3 fails on a file that decodes to JSON but not to an object: for the
    text [[]] (or [4], or [null]) [data.get] raises [AttributeError], which
    [load_highscores] does not catch, so loading fails; likewise a file that
    is not valid UTF-8 raises [UnicodeDecodeError] out of it.  The missing
    file and the example of the spec do load as stated. *)
Theorem load_highscores_non_object_raises :
  load_highscores (FileDecoded (JArr [])) = PyRaise AttributeError /\
  load_highscores (FileDecoded (JInt 4)) = PyRaise AttributeError /\
  load_highscores (FileDecoded JNull) = PyRaise AttributeError /\
  load_highscores (FileReadFails UnicodeDecodeError) = PyRaise UnicodeDecodeError /\
  load_highscores FileMissing =
    PyOk [("Easy", None); ("Normal", None); ("Hard", None)]%string /\
  load_highscores (FileDecoded (JObj [("Easy", JStr "not-a-number"); ("Normal", JInt 4)]%string))
    = PyOk [("Easy", None); ("Normal", Some (NInt 4)); ("Hard", None)]%string.
Proof. repeat split; reflexivity. Qed.

(** ** C4 *)

(** C4, as the code has it: for a file holding a JSON object, each known
    difficulty gets the value stored under its name, kept as it is,
    whenever [isinstance(v, int)] holds of it: every integer, zero and
    negative ones included (and a JSON [true] or [false], kept as the
    bool); for any other value the entry stays absent. *)
Theorem load_highscores_keeps_any_int (ms : list (string * json)) :
  exists t, load_highscores (FileDecoded (JObj ms)) = PyOk t /\
  forall d, dict_lookup t (diff_name d) = Some (py_int (obj_get ms (diff_name d))).
Proof.
  unfold load_highscores, default_scores, DIFFICULTIES. simpl.
  destruct (py_int (obj_get ms "Easy")) eqn:E1, (py_int (obj_get ms "Normal")) eqn:E2,
    (py_int (obj_get ms "Hard")) eqn:E3;
    eexists; (split; [reflexivity|]); intros d; destruct d; cbn [diff_name]; first [rewrite E1 | rewrite E2 | rewrite E3]; reflexivity.
Qed.

(** C4 fails as stated: a negative and a zero value are loaded as records. *)
Lemma load_highscores_negative_kept :
  load_highscores (FileDecoded (JObj [("Easy", JInt (-3)); ("Normal", JInt 0)]%string)) =
  PyOk [("Easy", Some (NInt (-3))); ("Normal", Some (NInt 0)); ("Hard", None)]%string.
Proof. reflexivity. Qed.

(** * Console input *)

(** A line [input_choice] turns down. *)
Definition choice_rejected (valid : list string) (ev : input_event) : Prop :=
  exists s, ev = Line s /\ ~ exists v, In v valid /\ codes v = py_upper (py_strip s).

(** A line [input_int] turns down. *)
Definition int_rejected (lo hi : Z) (ev : input_event) : Prop :=
  exists s, ev = Line s /\
    match py_int_of_str (py_strip s) with Some v => ~ (lo <= v <= hi) | None => True end.

Lemma codes_eqb_spec (x y : list Z) : codes_eqb x y = true <-> x = y.
Proof. unfold codes_eqb. destruct (list_eq_dec Z.eq_dec x y); split; congruence. Qed.

Lemma input_choice_inv (valid : list string) (ls : stream) :
  match input_choice valid ls with
  | IOk c r =>
      In c valid /\
      exists skipped raw, ls = skipped ++ Line raw :: r /\
        codes c = py_upper (py_strip raw) /\ Forall (choice_rejected valid) skipped
  | IORaise e r =>
      e = SystemExit0 /\
      exists skipped, Forall (choice_rejected valid) skipped /\
        ((ls = skipped /\ r = []) \/ ls = skipped ++ CtrlC :: r)
  end.
Proof.
  induction ls as [|[raw|] ls IH]; simpl.
  - split; [reflexivity|]. exists []. split; [constructor|]. left. auto.
  - destruct (find (fun v => codes_eqb (codes v) (py_upper (py_strip raw))) valid)
      as [v|] eqn:Hf.
    + apply find_some in Hf. destruct Hf as [Hin Heq]. apply codes_eqb_spec in Heq.
      split; [exact Hin|]. exists [], raw. auto.
    + assert (Hrej : choice_rejected valid (Line raw)).
      { exists raw. split; [reflexivity|]. intros [v [Hin Heq]].
        pose proof (find_none _ _ Hf v Hin) as Hc. simpl in Hc.
        rewrite <- Heq in Hc. unfold codes_eqb in Hc.
        destruct (list_eq_dec Z.eq_dec (codes v) (codes v)); [discriminate|contradiction]. }
      destruct (input_choice valid ls) as [c r|e r].
      * destruct IH as [Hin [skipped [raw' [-> [Hc Hall]]]]].
        split; [exact Hin|]. exists (Line raw :: skipped), raw'. auto.
      * destruct IH as [He [skipped [Hall Hls]]]. split; [exact He|].
        exists (Line raw :: skipped). split; [auto|].
        destruct Hls as [[-> ->]| ->]; [left|right]; auto.
  - split; [reflexivity|]. exists []. split; [constructor|]. right. reflexivity.
Qed.

(** X1: [input_choice] returns a member of [valid], read off the first line
    whose stripped, upper-cased text is one; every line before it was
    turned down.  It raises nothing but [SystemExit(0)], at an end of input
    or a Ctrl+C, after turning down every line before. *)
Theorem input_choice_spec (valid : list string) (ls : stream) :
  match input_choice valid ls with
  | IOk c r =>
      In c valid /\
      exists skipped raw, ls = skipped ++ Line raw :: r /\
        codes c = py_upper (py_strip raw) /\ Forall (choice_rejected valid) skipped
  | IORaise e r =>
      e = SystemExit0 /\
      exists skipped, Forall (choice_rejected valid) skipped /\
        ((ls = skipped /\ r = []) \/ ls = skipped ++ CtrlC :: r)
  end.
Proof. exact (input_choice_inv valid ls). Qed.

Lemma input_choice_spec_witness :
  match input_choice ["E"; "N"; "H"]%string [Line "x"; Line " n "] with
  | IOk c r =>
      In c ["E"; "N"; "H"]%string /\
      exists skipped raw, [Line "x"; Line " n "] = skipped ++ Line raw :: r /\
        codes c = py_upper (py_strip raw) /\
        Forall (choice_rejected ["E"; "N"; "H"]%string) skipped
  | IORaise e r =>
      e = SystemExit0 /\
      exists skipped, Forall (choice_rejected ["E"; "N"; "H"]%string) skipped /\
        (([Line "x"; Line " n "] = skipped /\ r = []) \/
         [Line "x"; Line " n "] = skipped ++ CtrlC :: r)
  end.
Proof. exact (input_choice_spec ["E"; "N"; "H"]%string [Line "x"; Line " n "]). Defined.

Lemma input_int_inv (lo hi : Z) (ls : stream) :
  match input_int lo hi ls with
  | IOk v r =>
      lo <= v <= hi /\
      exists skipped raw, ls = skipped ++ Line raw :: r /\
        py_int_of_str (py_strip raw) = Some v /\ Forall (int_rejected lo hi) skipped
  | IORaise e r =>
      e = SystemExit0 /\
      exists skipped, Forall (int_rejected lo hi) skipped /\
        ((ls = skipped /\ r = []) \/ ls = skipped ++ CtrlC :: r)
  end.
Proof.
  induction ls as [|[raw|] ls IH]; simpl.
  - split; [reflexivity|]. exists []. split; [constructor|]. left. auto.
  - assert (Hstep : forall (Hrej : int_rejected lo hi (Line raw)),
      match input_int lo hi ls with
      | IOk v r =>
          lo <= v <= hi /\
          exists skipped raw0, Line raw :: ls = skipped ++ Line raw0 :: r /\
            py_int_of_str (py_strip raw0) = Some v /\ Forall (int_rejected lo hi) skipped
      | IORaise e r =>
          e = SystemExit0 /\
          exists skipped, Forall (int_rejected lo hi) skipped /\
            ((Line raw :: ls = skipped /\ r = []) \/ Line raw :: ls = skipped ++ CtrlC :: r)
      end).
    { intros Hrej. destruct (input_int lo hi ls) as [v r|e r].
      - destruct IH as [Hv [skipped [raw' [-> [Hp Hall]]]]].
        split; [exact Hv|]. exists (Line raw :: skipped), raw'. auto.
      - destruct IH as [He [skipped [Hall Hls]]]. split; [exact He|].
        exists (Line raw :: skipped). split; [auto|].
        destruct Hls as [[-> ->]| ->]; [left|right]; auto. }
    destruct (py_int_of_str (py_strip raw)) as [v|] eqn:Hp.
    + destruct ((lo <=? v) && (v <=? hi)) eqn:Hr.
      * apply andb_true_iff in Hr. destruct Hr as [H1 H2].
        apply Z.leb_le in H1. apply Z.leb_le in H2.
        split; [lia|]. exists [], raw. auto.
      * apply Hstep. exists raw. split; [reflexivity|]. rewrite Hp.
        intros [H1 H2]. apply Z.leb_le in H1. apply Z.leb_le in H2.
        rewrite H1, H2 in Hr. discriminate.
    + apply Hstep. exists raw. rewrite Hp. auto.
  - split; [reflexivity|]. exists []. split; [constructor|]. right. reflexivity.
Qed.

(** X2: [input_int lo hi] returns a value in [[lo, hi]], the [int()] of the
    first line that parses to one; every line before it was turned down,
    among them any line of more than [INT_MAX_STR_DIGITS] (4300) digits, on
    which [int()] raises [ValueError].  It raises nothing but
    [SystemExit(0)], at an end of input or a Ctrl+C. *)
Theorem input_int_spec (lo hi : Z) (ls : stream) :
  match input_int lo hi ls with
  | IOk v r =>
      lo <= v <= hi /\
      exists skipped raw, ls = skipped ++ Line raw :: r /\
        py_int_of_str (py_strip raw) = Some v /\ Forall (int_rejected lo hi) skipped
  | IORaise e r =>
      e = SystemExit0 /\
      exists skipped, Forall (int_rejected lo hi) skipped /\
        ((ls = skipped /\ r = []) \/ ls = skipped ++ CtrlC :: r)
  end.
Proof. exact (input_int_inv lo hi ls). Qed.

Lemma input_int_spec_witness :
  match input_int 1 100 [Line "abc"; Line "101"; Line " 42 "] with
  | IOk v r =>
      1 <= v <= 100 /\
      exists skipped raw, [Line "abc"; Line "101"; Line " 42 "] = skipped ++ Line raw :: r /\
        py_int_of_str (py_strip raw) = Some v /\ Forall (int_rejected 1 100) skipped
  | IORaise e r =>
      e = SystemExit0 /\
      exists skipped, Forall (int_rejected 1 100) skipped /\
        (([Line "abc"; Line "101"; Line " 42 "] = skipped /\ r = []) \/
         [Line "abc"; Line "101"; Line " 42 "] = skipped ++ CtrlC :: r)
  end.
Proof. exact (input_int_spec 1 100 [Line "abc"; Line "101"; Line " 42 "]). Defined.

(** ** [int(str(v)) == v] *)

Lemma digits_go_digit (c : ascii) (r : string) (acc d : Z) :
  digit_val c = Some d -> digits_go (String c r) acc false = digits_go r (acc * 10 + d) false.
Proof. intros H. simpl. rewrite H. reflexivity. Qed.

Lemma digits_go_uint_acc (u : Decimal.uint) :
  forall acc : positive,
  digits_go (uint_to_string u) (Z.pos acc) false = Some (Z.pos (Pos.of_uint_acc u acc)).
Proof.
  induction u as [|u IH|u IH|u IH|u IH|u IH|u IH|u IH|u IH|u IH|u IH];
    intros acc; cbn [uint_to_string Pos.of_uint_acc]; [reflexivity| ..];
    (erewrite digits_go_digit by reflexivity); rewrite <- IH; f_equal;
    match goal with
    | |- context [Z.of_nat (nat_of_ascii ?c) - 48] =>
        let v := eval vm_compute in (Z.of_nat (nat_of_ascii c) - 48) in
        change (Z.of_nat (nat_of_ascii c) - 48) with v
    end; lia.
Qed.

Lemma digits_go_uint_zero (u : Decimal.uint) :
  digits_go (uint_to_string u) 0 false = Some (Z.of_N (Pos.of_uint u)).
Proof.
  induction u as [|u IH|u IH|u IH|u IH|u IH|u IH|u IH|u IH|u IH|u IH];
    simpl; [reflexivity|exact IH| ..];
    rewrite <- digits_go_uint_acc; reflexivity.
Qed.

Fixpoint no_space (s : string) : bool :=
  match s with
  | EmptyString => true
  | String c r => negb (is_space c) && no_space r
  end.

Lemma rstrip_no_space (s : string) : no_space s = true -> rstrip s = s.
Proof.
  induction s as [|c r IH]; simpl; [reflexivity|].
  intros H. apply andb_true_iff in H. destruct H as [Hc Hr].
  rewrite (IH Hr). apply negb_true_iff in Hc. rewrite Hc.
  destruct r; reflexivity.
Qed.

Lemma py_strip_no_space (s : string) : no_space s = true -> py_strip s = s.
Proof.
  intros H. unfold py_strip.
  assert (Hl : lstrip s = s).
  { destruct s as [|c r]; [reflexivity|]. simpl in H |- *.
    apply andb_true_iff in H. destruct H as [Hc _].
    apply negb_true_iff in Hc. rewrite Hc. reflexivity. }
  rewrite Hl. apply rstrip_no_space. exact H.
Qed.

Lemma no_space_uint (u : Decimal.uint) : no_space (uint_to_string u) = true.
Proof. induction u; simpl; auto. Qed.

Lemma parse_digits_uint (u : Decimal.uint) :
  u <> Decimal.Nil -> parse_digits (uint_to_string u) = Some (Z.of_N (Pos.of_uint u)).
Proof.
  intros Hu. destruct u; [contradiction| ..]; simpl;
    first [apply digits_go_uint_zero | apply digits_go_uint_acc].
Qed.

Lemma parse_signed_uint (u : Decimal.uint) :
  u <> Decimal.Nil -> parse_signed (uint_to_string u) = Some (Z.of_N (Pos.of_uint u)).
Proof.
  intros Hu. destruct u; [contradiction| ..]; simpl;
    first [apply digits_go_uint_zero | apply digits_go_uint_acc].
Qed.

Lemma to_uint_not_nil (p : positive) : Pos.to_uint p <> Decimal.Nil.
Proof.
  intros H. pose proof (DecimalZ.of_to (Z.pos p)) as Ht.
  simpl in Ht. rewrite H in Ht. discriminate.
Qed.

(** X3: [int(str(v))] is [v] for every int [v] whose [str] has at most
    [INT_MAX_STR_DIGITS] digits (with more, [str] and [int] raise
    [ValueError]), so [input_int lo hi] accepts the line [str(v)] of such a
    [v] in [[lo, hi]] at once. *)
Theorem input_int_accepts_str (lo hi v : Z) (r : stream) :
  lo <= v <= hi ->
  (count_digits (z_to_string v) <= INT_MAX_STR_DIGITS)%nat ->
  py_int_of_str (z_to_string v) = Some v /\
  input_int lo hi (Line (z_to_string v) :: r) = IOk v r.
Proof.
  intros Hv Hdig.
  assert (Hs : py_strip (z_to_string v) = z_to_string v).
  { apply py_strip_no_space. unfold z_to_string.
    destruct (Z.to_int v); simpl; [|]; apply no_space_uint. }
  assert (Hp : py_int_of_str (z_to_string v) = Some v).
  { unfold py_int_of_str. rewrite Hs.
    replace (Nat.ltb INT_MAX_STR_DIGITS (count_digits (z_to_string v))) with false
      by (symmetry; apply Nat.ltb_ge; exact Hdig).
    pose proof (DecimalZ.of_to v) as Ht. unfold z_to_string.
    destruct v as [|p|p]; simpl in Ht |- *.
    - reflexivity.
    - rewrite parse_signed_uint by apply to_uint_not_nil.
      unfold Z.of_uint in Ht. rewrite Ht. reflexivity.
    - rewrite parse_digits_uint by apply to_uint_not_nil.
      unfold Z.of_uint in Ht. simpl. rewrite Ht. reflexivity. }
  split; [exact Hp|].
  simpl. rewrite Hs, Hp.
  replace ((lo <=? v) && (v <=? hi)) with true by (symmetry; apply andb_true_iff; lia).
  reflexivity.
Qed.

Lemma input_int_accepts_str_witness :
  1 <= 37 <= 100 /\
  (count_digits (z_to_string 37) <= INT_MAX_STR_DIGITS)%nat /\
  py_int_of_str (z_to_string 37) = Some 37 /\
  input_int 1 100 (Line (z_to_string 37) :: [Line "5"]) = IOk 37 [Line "5"].
Proof.
  assert (Hd : (count_digits (z_to_string 37) <= INT_MAX_STR_DIGITS)%nat)
    by (apply Nat.leb_le; reflexivity).
  split; [lia|]. split; [exact Hd|].
  apply (input_int_accepts_str 1 100 37 [Line "5"]); [lia|exact Hd].
Defined.

(** ** [choose_difficulty] *)

Lemma choose_difficulty_inv (ls : stream) :
  match input_choice ["E"; "N"; "H"]%string ls with
  | IOk k r =>
      exists d, k = diff_key d /\
        choose_difficulty ls = IOk (diff_key d, max_attempts d, diff_name d) r
  | IORaise e r => e = SystemExit0 /\ choose_difficulty ls = IORaise e r
  end.
Proof.
  pose proof (input_choice_inv ["E"; "N"; "H"]%string ls) as H.
  unfold choose_difficulty. simpl map.
  destruct (input_choice ["E"; "N"; "H"]%string ls) as [k r|e r].
  - destruct H as [Hin _]. simpl in Hin.
    destruct Hin as [<-|[<-|[<-|[]]]];
      [exists Easy | exists Normal | exists Hard]; split; reflexivity.
  - destruct H as [He _]. auto.
Qed.

(** X4: [choose_difficulty] never raises [KeyError]: when [input_choice]
    accepts a key it is the key of a difficulty [d], and the result is
    [(key, max_attempts, name)] of that [d]; otherwise it passes on the
    [SystemExit(0)]. *)
Theorem choose_difficulty_spec (ls : stream) :
  match input_choice ["E"; "N"; "H"]%string ls with
  | IOk k r =>
      exists d, k = diff_key d /\
        choose_difficulty ls = IOk (diff_key d, max_attempts d, diff_name d) r
  | IORaise e r => e = SystemExit0 /\ choose_difficulty ls = IORaise e r
  end.
Proof. exact (choose_difficulty_inv ls). Qed.

(** ** The round read from the console *)

(** The inner loop of [play_io] is [input_int(..., 1, 100)]. *)
Lemma play_io_read (m : option Z) (s a : Z) (ls : stream) :
  play_io m s a ls =
  if match m with Some b => b - a <=? 0 | None => false end then IOk FORFEIT ls
  else match input_int 1 100 ls with
       | IORaise e r => IORaise e r
       | IOk g r => if g =? s then IOk (a + 1) r else play_io m s (a + 1) r
       end.
Proof.
  destruct (match m with Some b => b - a <=? 0 | None => false end) eqn:Hout.
  - destruct ls as [|[raw|] ls]; simpl; rewrite Hout; reflexivity.
  - induction ls as [|[raw|] ls IH]; simpl; rewrite ?Hout; try reflexivity.
    destruct (py_int_of_str (py_strip raw)) as [g|].
    + destruct ((1 <=? g) && (g <=? 100)); [reflexivity|].
      rewrite <- IH. destruct ls as [|[raw'|] ls']; simpl; rewrite Hout; reflexivity.
    + rewrite <- IH. destruct ls as [|[raw'|] ls']; simpl; rewrite Hout; reflexivity.
Qed.

Lemma guesses_of_skip (skipped rest : stream) :
  Forall (int_rejected 1 100) skipped -> guesses_of (skipped ++ rest) = guesses_of rest.
Proof.
  induction 1 as [|ev sk [raw [-> Hr]] _ IH]; [reflexivity|].
  simpl. destruct (py_int_of_str (py_strip raw)) as [v|]; [|exact IH].
  replace ((1 <=? v) && (v <=? 100)) with false; [exact IH|].
  symmetry. apply andb_false_iff.
  destruct (Z.leb_spec 1 v); [|auto]. right. apply Z.leb_gt. lia.
Qed.

Lemma guesses_of_input_int (ls : stream) :
  match input_int 1 100 ls with
  | IOk g r => guesses_of ls = g :: guesses_of r /\ (length r < length ls)%nat
  | IORaise _ _ => guesses_of ls = []
  end.
Proof.
  pose proof (input_int_inv 1 100 ls) as H.
  destruct (input_int 1 100 ls) as [g r|e r].
  - destruct H as [Hg [skipped [raw [-> [Hp Hall]]]]].
    rewrite guesses_of_skip by exact Hall. simpl. rewrite Hp.
    replace ((1 <=? g) && (g <=? 100)) with true by (symmetry; apply andb_true_iff; lia).
    split; [reflexivity|]. rewrite length_app. simpl. lia.
  - destruct H as [_ [skipped [Hall [[-> _]| ->]]]].
    + rewrite <- (app_nil_r skipped). rewrite guesses_of_skip by exact Hall. reflexivity.
    + rewrite guesses_of_skip by exact Hall. reflexivity.
Qed.

(** X5: the round read from the console behaves as [play_loop] on the
    guesses [input_int(..., 1, 100)] returns: when it returns [v], [play_loop]
    returns [v] with the guesses of the unread input left over; when the
    input ends or a Ctrl+C comes, it raises [SystemExit(0)] and [play_loop]
    is still waiting for a guess. *)
Theorem play_io_refines_play_loop (m : option Z) (s : Z) (ls : stream) (a : Z) :
  match play_io m s a ls with
  | IOk v r => snd (play_loop m s a (guesses_of ls)) = Returned v (guesses_of r)
  | IORaise e _ => e = SystemExit0 /\ exists a', snd (play_loop m s a (guesses_of ls)) = Blocked a'
  end.
Proof.
  remember (length ls) as n eqn:Hn. assert (Hle : (length ls <= n)%nat) by lia.
  clear Hn. revert ls a Hle.
  induction n as [n IHn] using (well_founded_induction lt_wf).
  intros ls a Hle. rewrite play_io_read.
  pose proof (guesses_of_input_int ls) as Hg.
  pose proof (input_int_inv 1 100 ls) as Hspec.
  destruct (match m with Some b => b - a <=? 0 | None => false end) eqn:Hout.
  - destruct m as [b|]; [|discriminate].
    destruct (guesses_of ls); simpl; rewrite Hout; reflexivity.
  - destruct (input_int 1 100 ls) as [g r|e r].
    + destruct Hg as [Hg Hlen]. rewrite Hg.
      destruct m as [b|]; simpl; rewrite ?Hout;
      (destruct (g =? s); [reflexivity|]);
      (pose proof (IHn (length r) ltac:(lia) r (a + 1) ltac:(lia)) as IH);
      destruct (play_io _ s (a + 1) r);
      destruct (play_loop _ s (a + 1) (guesses_of r)); exact IH.
    + destruct Hspec as [He _]. split; [exact He|]. rewrite Hg.
      exists a. destruct m as [b|]; simpl; rewrite ?Hout; reflexivity.
Qed.

(** ** Won rounds: the shape *)

(** X6: for any budget, a round that reports [MsgCorrect v] was won by the
    guess equal to the secret that follows [v - 1] wrong guesses; the
    message is the last one printed and the guesses after the winning one
    are left unread. *)
Theorem play_round_won_shape (m : option Z) (s : Z) (gs : list Z)
    (tr : list msg) (v : Z) (rest : list Z) :
  play_round m s gs = (tr, Returned v rest) -> In (MsgCorrect v) tr ->
  exists wrong, gs = wrong ++ s :: rest /\ Forall (fun g => g <> s) wrong /\
    v = Z.of_nat (length wrong) + 1 /\ last tr MsgCold = MsgCorrect v.
Proof.
  intros Hrun Hin. unfold play_round in Hrun.
  destruct (play_loop_won m s gs 0 tr v rest Hrun Hin) as [wrong [H1 [H2 [H3 H4]]]].
  exists wrong. split; [exact H1|]. split; [exact H2|]. split; [lia|exact H4].
Qed.

Lemma play_round_won_shape_witness :
  exists tr rest, play_round (Some 7) 42 [10; 80; 42; 5] = (tr, Returned 3 rest) /\
    In (MsgCorrect 3) tr /\
    exists wrong, [10; 80; 42; 5] = wrong ++ 42 :: rest /\
      Forall (fun g => g <> 42) wrong /\ 3 = Z.of_nat (length wrong) + 1 /\
      last tr MsgCold = MsgCorrect 3.
Proof.
  eexists. eexists. split; [reflexivity|].
  split; [simpl; tauto|].
  apply (play_round_won_shape (Some 7) 42 [10; 80; 42; 5]); [reflexivity|simpl; tauto].
Defined.

Lemma play_loop_easy (s : Z) (gs : list Z) : forall a,
  let '(tr, r) := play_loop None s a gs in
  (forall x, ~ In (MsgOutOfAttempts x) tr) /\
  ((Forall (fun g => g <> s) gs /\ r = Blocked (a + Z.of_nat (length gs))) \/
   exists wrong rest, gs = wrong ++ s :: rest /\ Forall (fun g => g <> s) wrong /\
     r = Returned (a + Z.of_nat (length wrong) + 1) rest).
Proof.
  induction gs as [|g gs IH]; intros a.
  - simpl. split; [intros x []|]. left. split; [constructor|]. f_equal. lia.
  - cbn [play_loop]. simpl app.
    destruct (Z.eqb_spec g s) as [->|Hne].
    + split.
      * intros x [H|[]]. discriminate.
      * right. exists [], gs. split; [reflexivity|]. split; [constructor|].
        simpl length. rewrite Z.add_0_r. reflexivity.
    + specialize (IH (a + 1)).
      destruct (play_loop None s (a + 1) gs) as [tr r].
      destruct IH as [Hno Hr]. split.
      * intros x [H|[H|H]].
        -- unfold direction_msg in H. destruct (g <? s); discriminate.
        -- unfold proximity_msg in H.
           repeat destruct (_ <=? _); discriminate.
        -- exact (Hno x H).
      * destruct Hr as [[Hall ->]|[wrong [rest [-> [Hw ->]]]]].
        -- left. split; [constructor; assumption|]. f_equal. simpl length. lia.
        -- right. exists (g :: wrong), rest. repeat split.
           ++ constructor; assumption.
           ++ f_equal. simpl length. lia.
Qed.

(** X7: an [Easy] round (no budget) never prints "Out of attempts": either
    every guess is wrong and the loop waits for more with its counter at the
    number of guesses, or it returns [k + 1] at the first correct guess after
    [k] wrong ones. It never returns the forfeit value. *)
Theorem easy_round_never_exhausts (s : Z) (gs : list Z) :
  let '(tr, r) := play_round (max_attempts Easy) s gs in
  (forall x, ~ In (MsgOutOfAttempts x) tr) /\
  ((Forall (fun g => g <> s) gs /\ r = Blocked (Z.of_nat (length gs))) \/
   exists wrong rest, gs = wrong ++ s :: rest /\ Forall (fun g => g <> s) wrong /\
     r = Returned (Z.of_nat (length wrong) + 1) rest).
Proof.
  unfold play_round. pose proof (play_loop_easy s gs 0) as H. simpl max_attempts.
  destruct (play_loop None s 0 gs) as [tr r]. exact H.
Qed.

(** * Keys of the score table *)

Lemma dict_keys_set (d : table) (k : string) (v : option num) :
  dict_keys (dict_set d k v) =
  if existsb (String.eqb k) (dict_keys d) then dict_keys d else dict_keys d ++ [k].
Proof.
  induction d as [|[k' v'] d IH]; [reflexivity|].
  simpl. destruct (String.eqb_spec k k') as [->|Hne]; simpl; [reflexivity|].
  rewrite IH. destruct (existsb (String.eqb k) (dict_keys d)); reflexivity.
Qed.

Lemma dict_lookup_absent (d : table) (k : string) :
  existsb (String.eqb k) (dict_keys d) = false -> dict_lookup d k = None.
Proof.
  induction d as [|[k' v'] d IH]; [reflexivity|].
  simpl. destruct (String.eqb k k'); [discriminate|exact IH].
Qed.

Lemma load_loop_keys (data : json) (ks : list string) : forall scores,
  Forall (fun k => existsb (String.eqb k) (dict_keys scores) = true) ks ->
  dict_keys (fst (load_loop data ks scores)) = dict_keys scores.
Proof.
  induction ks as [|k ks IH]; intros scores Hks; [reflexivity|].
  inversion Hks as [|? ? Hk Hrest]; subst.
  simpl. destruct (json_get data k) as [v|e]; [|reflexivity].
  destruct (py_int v) as [z|]; [|exact (IH scores Hrest)].
  assert (Hsame : dict_keys (dict_set scores k (Some z)) = dict_keys scores)
    by (rewrite dict_keys_set, Hk; reflexivity).
  rewrite IH, Hsame; [reflexivity|]. rewrite Hsame. exact Hrest.
Qed.

Lemma load_highscores_inv (fv : file_view) :
  match load_highscores fv with
  | PyOk t => dict_keys t = ["Easy"; "Normal"; "Hard"]%string
  | PyRaise e =>
      load_caught e = false /\
      (fv = FileReadFails e \/
       (e = AttributeError /\ exists data, fv = FileDecoded data /\
          forall ms, data <> JObj ms))
  end.
Proof.
  unfold load_highscores. destruct fv as [|e|data].
  - reflexivity.
  - destruct (load_caught e) eqn:Hc; [reflexivity|]. auto.
  - destruct data as [| | | | | |ms];
      try (split; [reflexivity|]; right; split; [reflexivity|];
           eexists; split; [reflexivity|]; intros ms; discriminate).
    pose proof (load_loop_keys (JObj ms) (dict_keys default_scores) default_scores)
      as H.
    assert (Hl : forall sc, exists t, load_loop (JObj ms) (dict_keys default_scores) sc = (t, None)).
    { intros sc. unfold default_scores, DIFFICULTIES. simpl.
      destruct (py_int (obj_get ms "Easy")), (py_int (obj_get ms "Normal")),
        (py_int (obj_get ms "Hard")); eexists; reflexivity. }
    destruct (Hl default_scores) as [t Ht]. rewrite Ht in H |- *.
    apply H. repeat constructor.
Qed.

(** X8: [load_highscores] either returns a table whose keys are the three
    difficulty names in order, or raises; it raises only an exception the
    [except (OSError, json.JSONDecodeError)] does not name, coming from
    reading the file or from [.get] on a JSON value that is not an
    object. *)
Theorem load_highscores_keys (fv : file_view) :
  match load_highscores fv with
  | PyOk t => dict_keys t = ["Easy"; "Normal"; "Hard"]%string
  | PyRaise e =>
      load_caught e = false /\
      (fv = FileReadFails e \/
       (e = AttributeError /\ exists data, fv = FileDecoded data /\
          forall ms, data <> JObj ms))
  end.
Proof. exact (load_highscores_inv fv). Qed.

Lemma update_highscore_keys_inv (w : write_outcome) (f : fs) (scores : table)
    (name : string) (a : Z) :
  dict_keys (snd (fst (update_highscore w f scores name a))) =
  if existsb (String.eqb name) (dict_keys scores) then dict_keys scores
  else dict_keys scores ++ [name].
Proof.
  rewrite update_highscore_eq.
  destruct (existsb (String.eqb name) (dict_keys scores)) eqn:Hin.
  - destruct (improves (scores_get scores name) a); simpl; [|reflexivity].
    rewrite dict_keys_set, Hin. reflexivity.
  - unfold scores_get. rewrite (dict_lookup_absent _ _ Hin). simpl.
    rewrite dict_keys_set, Hin. reflexivity.
Qed.

(** X9: [update_highscore] keeps the keys of [scores] and their order; a
    name that was not a key is appended (its record is then always set). *)
Theorem update_highscore_keys (w : write_outcome) (f : fs) (scores : table)
    (name : string) (a : Z) :
  dict_keys (snd (fst (update_highscore w f scores name a))) =
  if existsb (String.eqb name) (dict_keys scores) then dict_keys scores
  else dict_keys scores ++ [name].
Proof. exact (update_highscore_keys_inv w f scores name a). Qed.

(** * The menu loop *)

(** ** What each prompt leaves of the input *)

Lemma input_choice_consumes (valid : list string) (ls : stream) :
  match input_choice valid ls with
  | IOk _ r => (length r < length ls)%nat /\ exists p, ls = p ++ r
  | IORaise _ _ => True
  end.
Proof.
  pose proof (input_choice_inv valid ls) as H.
  destruct (input_choice valid ls) as [c r|]; [|exact I].
  destruct H as [_ [skipped [raw [-> _]]]]. split.
  - rewrite length_app. simpl. lia.
  - exists (skipped ++ [Line raw]). rewrite <- app_assoc. reflexivity.
Qed.

Lemma choose_difficulty_out (ls : stream) :
  match choose_difficulty ls with
  | IOk (_, m, n) r =>
      (exists d, m = max_attempts d /\ n = diff_name d) /\ exists p, ls = p ++ r
  | IORaise _ _ => True
  end.
Proof.
  pose proof (choose_difficulty_inv ls) as H.
  pose proof (input_choice_consumes ["E"; "N"; "H"]%string ls) as Hc.
  destruct (input_choice ["E"; "N"; "H"]%string ls) as [k r|e r].
  - destruct H as [d [_ ->]]. split; [eauto|]. apply Hc.
  - destruct H as [_ ->]. exact I.
Qed.

Lemma play_io_suffix (m : option Z) (s : Z) (ls : stream) : forall a,
  match play_io m s a ls with
  | IOk _ r => exists p, ls = p ++ r
  | IORaise _ _ => True
  end.
Proof.
  remember (length ls) as n eqn:Hn. assert (Hle : (length ls <= n)%nat) by lia.
  clear Hn. revert ls Hle.
  induction n as [n IHn] using (well_founded_induction lt_wf).
  intros ls Hle a. rewrite play_io_read.
  destruct (match m with Some b => b - a <=? 0 | None => false end).
  - exists []. reflexivity.
  - pose proof (input_int_inv 1 100 ls) as H.
    destruct (input_int 1 100 ls) as [g r|]; [|exact I].
    destruct H as [_ [skipped [raw [-> _]]]].
    destruct (g =? s).
    + exists (skipped ++ [Line raw]). rewrite <- app_assoc. reflexivity.
    + assert (Hlt : (length r < n)%nat) by (rewrite length_app in Hle; simpl in Hle; lia).
      pose proof (IHn (length r) Hlt r (le_n _) (a + 1)) as IH.
      destruct (play_io m s (a + 1) r) as [v r'|]; [|exact I].
      destruct IH as [p ->]. exists (skipped ++ Line raw :: p).
      rewrite <- app_assoc. reflexivity.
Qed.

Lemma input_line_out (ls : stream) :
  match input_line ls with
  | IOk s r => ls = Line s :: r
  | IORaise _ _ => True
  end.
Proof. destruct ls as [|[s|] r]; reflexivity. Qed.

Lemma reset_highscores_suffix (e : env) (k : nat) (ls : stream) (f : fs) :
  match reset_highscores e k ls f with
  | IOk _ r => exists p, ls = p ++ r
  | IORaise _ _ => True
  end.
Proof.
  unfold reset_highscores.
  pose proof (input_choice_consumes ["Y"; "N"]%string ls) as H.
  destruct (input_choice ["Y"; "N"]%string ls) as [c r|]; [|exact I].
  destruct H as [_ Hp].
  destruct (String.eqb c "Y"); [destruct f; [destruct (remove_ok e k)|]|]; exact Hp.
Qed.

(** [update_highscore] returns normally: its [save_highscores] swallows
    the [OSError]. *)
Lemma update_highscore_ok (w : write_outcome) (f : fs) (scores : table)
    (name : string) (a : Z) :
  exists b, fst (fst (update_highscore w f scores name a)) = PyOk b.
Proof.
  rewrite update_highscore_eq.
  destruct (improves (scores_get scores name) a); eexists; reflexivity.
Qed.

(** ** One iteration of the [while True] loop *)

Ltac suffix_len :=
  repeat match goal with
         | H : ?l = _ ++ _ |- _ => is_var l; subst l
         | H : ?l = _ :: _ |- _ => is_var l; subst l
         end;
  repeat rewrite length_app in *; simpl in *; lia.

Ltac suffix_app := repeat rewrite <- app_assoc; reflexivity.

Lemma reset_highscores_file (e : env) (k : nat) (ls : stream) (f : fs) :
  match reset_highscores e k ls f with
  | IOk f' _ => f' = f \/ f' = None
  | IORaise _ _ => True
  end.
Proof.
  unfold reset_highscores.
  destruct (input_choice ["Y"; "N"]%string ls) as [c r|]; [|exact I].
  destruct (String.eqb c "Y"); [destruct f; [destruct (remove_ok e k)|]|]; auto.
Qed.

(** An iteration returns ("5"), raises, or goes on with the next one on a
    shorter input; the table it goes on with is [scores] itself, the
    result of an [update_highscore] on it, or, after "4", what
    [load_highscores()] read; the file is the one it started with, the one
    [update_highscore] left, or none after a reset. *)
Lemma menu_go_step (e : env) (fuel k : nat) (sc : table) (f : fs) (ls : stream) :
  (exists r, menu_go e (S fuel) k sc f ls = MenuDone sc f r) \/
  (exists ex f', menu_go e (S fuel) k sc f ls = MenuRaise ex f' /\
     (f' = f \/ f' = None \/
      exists d a, f' = snd (update_highscore (write_at e k) f sc (diff_name d) a))) \/
  (exists sc' f' r, menu_go e (S fuel) k sc f ls = menu_go e fuel (S k) sc' f' r /\
     (length r < length ls)%nat /\ (exists p, ls = p ++ r) /\
     ((exists d a, sc' = snd (fst (update_highscore (write_at e k) f sc (diff_name d) a)) /\
                   f' = snd (update_highscore (write_at e k) f sc (diff_name d) a)) \/
      (sc' = sc /\ f' = f) \/
      (exists r0, input_choice MENU_CHOICES ls = IOk "4"%string r0 /\
                  load_from e f' = PyOk sc' /\ (f' = f \/ f' = None)))).
Proof.
  cbn [menu_go].
  pose proof (input_choice_consumes MENU_CHOICES ls) as Hc.
  destruct (input_choice MENU_CHOICES ls) as [c r|ex r] eqn:Hch;
    [|right; left; eauto].
  destruct Hc as [Hlt [p Hp]].
  destruct (String.eqb c "1") eqn:E1.
  - pose proof (choose_difficulty_out r) as Hd.
    destruct (choose_difficulty r) as [[[k0 m] n] r1|ex r1]; [|right; left; eauto].
    destruct Hd as [[d [-> ->]] [p1 Hp1]].
    pose proof (play_io_suffix (max_attempts d) (secret_at e k) r1 0) as Hpl.
    destruct (play_io (max_attempts d) (secret_at e k) 0 r1) as [att r2|ex r2];
      [|right; left; eauto].
    destruct Hpl as [p2 Hp2].
    destruct (att <? FORFEIT).
    + destruct (update_highscore_ok (write_at e k) f sc (diff_name d) att) as [b Hb].
      destruct (update_highscore (write_at e k) f sc (diff_name d) att)
        as [[res sc'] f'] eqn:Hu.
      simpl in Hb. subst res.
      pose proof (input_line_out r2) as Hl.
      destruct (input_line r2) as [s r3|ex r3].
      * right; right. exists sc', f', r3. split; [reflexivity|].
        split; [suffix_len|]. split.
        -- exists (p ++ p1 ++ p2 ++ [Line s]). subst. suffix_app.
        -- left. exists d, att. rewrite Hu. split; reflexivity.
      * right; left. exists (EIO ex), f'. split; [reflexivity|].
        right; right. exists d, att. rewrite Hu. reflexivity.
    + pose proof (input_line_out r2) as Hl. cbn.
      destruct (input_line r2) as [s r3|ex r3]; [|right; left; eauto].
      right; right. exists sc, f, r3. split; [reflexivity|].
      split; [suffix_len|]. split; [|right; left; split; reflexivity].
      exists (p ++ p1 ++ p2 ++ [Line s]). subst. suffix_app.
  - destruct (String.eqb c "2" || String.eqb c "3").
    + pose proof (input_line_out r) as Hl.
      destruct (input_line r) as [s r1|ex r1]; [|right; left; eauto].
      right; right. exists sc, f, r1. split; [reflexivity|].
      split; [suffix_len|]. split; [|right; left; split; reflexivity].
      exists (p ++ [Line s]). subst. suffix_app.
    + destruct (String.eqb_spec c "4") as [->|_].
      * pose proof (reset_highscores_suffix e k r f) as Hr.
        pose proof (reset_highscores_file e k r f) as Hrf.
        destruct (reset_highscores e k r f) as [f' r1|ex r1]; [|right; left; eauto].
        destruct Hr as [p1 Hp1].
        destruct (load_from e f') as [sc'|pe] eqn:Hload.
        -- right; right. exists sc', f', r1. split; [reflexivity|].
           split; [suffix_len|]. split.
           ++ exists (p ++ p1). subst. suffix_app.
           ++ right; right. exists r. split; [reflexivity|]. split; [exact Hload|exact Hrf].
        -- right; left. exists (EPy pe), f'. split; [reflexivity|].
           destruct Hrf as [->| ->]; auto.
      * left. eauto.
Qed.

(** ** Termination *)

(** [menu_loop] needs no more iterations than events in its input. *)
Lemma menu_loop_enough_fuel (e : env) (fuel : nat) : forall k sc f ls,
  (length ls < fuel)%nat -> menu_go e fuel k sc f ls <> MenuOutOfFuel.
Proof.
  induction fuel as [|fuel IH]; intros k sc f ls Hlt; [lia|].
  destruct (menu_go_step e fuel k sc f ls)
    as [[r H]|[[ex [f' [H _]]]|[sc' [f' [r [H [Hl _]]]]]]]; rewrite H; try discriminate.
  apply IH. lia.
Qed.

(** X14: on a finite input, [main()] returns, exits or raises: each
    iteration of the menu loop reads at least one line (or the end of the
    input), so the fuel [main] is given never runs out. *)
Theorem main_terminates (e : env) (f : fs) (ls : stream) :
  main e f ls <> MainOutOfFuel.
Proof.
  unfold main, menu_loop. destruct (load_from e f) as [sc|pe]; [|discriminate].
  pose proof (menu_loop_enough_fuel e (S (length ls)) 0 sc f ls (le_n _)) as H.
  destruct (menu_go e (S (length ls)) 0 sc f ls) as [| [[]|] |]; try discriminate.
  contradiction.
Qed.

(** ** The table of the session *)

Lemma load_from_keys (e : env) (f : fs) (sc : table) :
  load_from e f = PyOk sc -> dict_keys sc = ["Easy"; "Normal"; "Hard"]%string.
Proof.
  unfold load_from. intros H.
  pose proof (load_highscores_inv (match f with None => FileMissing | Some t => read_file e t end))
    as Hk.
  rewrite H in Hk. exact Hk.
Qed.

Lemma menu_go_keys (e : env) (fuel : nat) : forall k sc f ls,
  dict_keys sc = ["Easy"; "Normal"; "Hard"]%string ->
  match menu_go e fuel k sc f ls with
  | MenuDone sc' _ _ => dict_keys sc' = ["Easy"; "Normal"; "Hard"]%string
  | _ => True
  end.
Proof.
  induction fuel as [|fuel IH]; intros k sc f ls Hsc; [exact I|].
  destruct (menu_go_step e fuel k sc f ls)
    as [[r H]|[[ex [f' [H _]]]|[sc' [f' [r [H [_ [_ Hsc']]]]]]]]; rewrite H;
    [exact Hsc|exact I|].
  apply IH. destruct Hsc' as [[d [a [-> _]]]|[[-> _]|[r0 [_ [Hload _]]]]].
  - rewrite update_highscore_keys_inv, Hsc. destruct d; reflexivity.
  - exact Hsc.
  - exact (load_from_keys e f' sc' Hload).
Qed.

(** X10: the table [menu_loop] works on always has the three difficulty
    names as keys, in order: when the loop returns (option "5"), its
    [scores] has exactly these keys, whatever was played, reset or
    reloaded. *)
Theorem menu_loop_keys (e : env) (fuel : nat) (f : fs) (ls : stream) :
  match menu_loop e fuel f ls with
  | MenuDone sc _ _ => dict_keys sc = ["Easy"; "Normal"; "Hard"]%string
  | _ => True
  end.
Proof.
  unfold menu_loop. destruct (load_from e f) as [sc|pe] eqn:Hload; [|exact I].
  apply menu_go_keys. exact (load_from_keys e f sc Hload).
Qed.

(** ** Option "4" *)

(** X11: choosing "4" and confirming with "Y" when there is no file or
    [os.remove] succeeds goes on with the default table (every record
    [None]) and no file: the reload after the reset reads no file. *)
Theorem reset_confirmed_clears (e : env) (fuel k : nat) (sc : table) (f : fs)
    (ls r r1 : stream) :
  input_choice MENU_CHOICES ls = IOk "4"%string r ->
  input_choice ["Y"; "N"]%string r = IOk "Y"%string r1 ->
  f = None \/ remove_ok e k = true ->
  menu_go e (S fuel) k sc f ls = menu_go e fuel (S k) default_scores None r1.
Proof.
  intros H4 HY Hf. cbn [menu_go]. rewrite H4. cbn -[reset_highscores].
  unfold reset_highscores. rewrite HY. cbn -[menu_go].
  destruct f as [t|]; [|reflexivity].
  destruct Hf as [Hf|Hf]; [discriminate|]. rewrite Hf. reflexivity.
Qed.

Lemma reset_confirmed_clears_witness :
  let e := {| secret_at := fun _ => 50; write_at := fun _ => WriteOk;
              remove_ok := fun _ => true; read_file := fun _ => FileMissing |} in
  input_choice MENU_CHOICES [Line " 4"; Line "y"; Line "5"] = IOk "4"%string [Line "y"; Line "5"] /\
  input_choice ["Y"; "N"]%string [Line "y"; Line "5"] = IOk "Y"%string [Line "5"] /\
  (Some "{}"%string = None \/ remove_ok e 0 = true) /\
  menu_go e 2 0 [("Easy", Some (NInt 3)); ("Normal", None); ("Hard", None)]%string (Some "{}"%string)
    [Line " 4"; Line "y"; Line "5"] =
  menu_go e 1 1 default_scores None [Line "5"].
Proof.
  intros e. split; [reflexivity|]. split; [reflexivity|]. split; [right; reflexivity|].
  apply (reset_confirmed_clears e 1 0 _ _ _ [Line "y"; Line "5"] [Line "5"]);
    [reflexivity|reflexivity|right; reflexivity].
Defined.

(** ** What escapes [main()] *)

(** X13: [main()] catches only [SystemExit]: an end of input at the menu
    prompt ends it normally, but after choosing "2" or "3" (typed in any
    case, with any surrounding whitespace) an end of input at "Press Enter
    to return to menu..." escapes as [EOFError], and a Ctrl+C there as
    [KeyboardInterrupt]; the file is left as it was. *)
Theorem main_press_enter_uncaught (e : env) (f : fs) (sc : table) (raw : string) :
  load_from e f = PyOk sc ->
  py_upper (py_strip raw) = codes "2" \/ py_upper (py_strip raw) = codes "3" ->
  main e f [] = MainExit f /\
  main e f [Line raw] = MainCrash (EIO EOFError) f /\
  main e f [Line raw; CtrlC] = MainCrash (EIO KeyboardInterrupt) f.
Proof.
  intros Hload Hraw. unfold main, menu_loop. rewrite Hload.
  assert (Hc : forall r, exists c, input_choice MENU_CHOICES (Line raw :: r) = IOk c r /\
                         (c = "2"%string \/ c = "3"%string)).
  { intros r. cbn [input_choice].
    destruct Hraw as [-> | ->]; eexists; split; [reflexivity|auto|reflexivity|auto]. }
  split; [reflexivity|]. split.
  - destruct (Hc []) as [c [H [-> | ->]]]; cbn [length menu_go]; rewrite H; reflexivity.
  - destruct (Hc [CtrlC]) as [c [H [-> | ->]]]; cbn [length menu_go]; rewrite H; reflexivity.
Qed.

Lemma main_press_enter_uncaught_witness :
  let e := {| secret_at := fun _ => 50; write_at := fun _ => WriteOk;
              remove_ok := fun _ => true; read_file := fun _ => FileMissing |} in
  load_from e None = PyOk default_scores /\
  (py_upper (py_strip " 3 ") = codes "2" \/ py_upper (py_strip " 3 ") = codes "3") /\
  main e None [] = MainExit None /\
  main e None [Line " 3 "] = MainCrash (EIO EOFError) None /\
  main e None [Line " 3 "; CtrlC] = MainCrash (EIO KeyboardInterrupt) None.
Proof.
  intros e. split; [reflexivity|]. split; [right; reflexivity|].
  apply (main_press_enter_uncaught e None default_scores " 3 "); [reflexivity|right; reflexivity].
Defined.

(** ** Records *)

(** [now] is at least as good a record as [before]. *)
Definition no_worse (now before : option Z) : Prop :=
  match before with
  | None => True
  | Some b => exists b', now = Some b' /\ b' <= b
  end.

(** A line that [input_choice] does not read as "4". *)
Definition no_reset_line (ev : input_event) : Prop :=
  match ev with
  | Line raw => py_upper (py_strip raw) <> codes "4"
  | CtrlC => True
  end.

Lemma no_worse_refl (x : option Z) : no_worse x x.
Proof. destruct x as [b|]; simpl; [exists b; split; [reflexivity|lia]|exact I]. Qed.

Lemma no_worse_trans (x y z : option Z) : no_worse x y -> no_worse y z -> no_worse x z.
Proof.
  destruct z as [c|]; simpl; [|auto].
  intros Hxy [b [-> Hb]]. destruct Hxy as [a [-> Ha]]. exists a. split; [reflexivity|lia].
Qed.

Lemma no_worse_update (w : write_outcome) (f : fs) (sc : table) (name n : string) (a : Z) :
  no_worse (scores_get (snd (fst (update_highscore w f sc name a))) n) (scores_get sc n).
Proof.
  destruct (String.eqb_spec n name) as [->|Hne].
  - rewrite scores_get_after_update.
    destruct (scores_get sc name) as [b|]; simpl; [|exact I].
    exists (Z.min b a). split; [reflexivity|lia].
  - unfold scores_get at 1. rewrite (scores_lookup_after_update_other _ _ _ _ _ _ Hne).
    apply no_worse_refl.
Qed.

Lemma menu_go_records (e : env) (fuel : nat) : forall k sc f ls,
  Forall no_reset_line ls ->
  match menu_go e fuel k sc f ls with
  | MenuDone sc' _ _ => forall n, no_worse (scores_get sc' n) (scores_get sc n)
  | _ => True
  end.
Proof.
  induction fuel as [|fuel IH]; intros k sc f ls Hls; [exact I|].
  destruct (menu_go_step e fuel k sc f ls)
    as [[r H]|[[ex [f' [H _]]]|[sc' [f' [r [H [_ [[p Hp] Hsc']]]]]]]]; rewrite H.
  - intros n. apply no_worse_refl.
  - exact I.
  - assert (Hr : Forall no_reset_line r)
      by (rewrite Hp in Hls; apply Forall_app in Hls; apply Hls).
    pose proof (IH (S k) sc' f' r Hr) as IHr.
    destruct (menu_go e fuel (S k) sc' f' r) as [sc'' f'' r''| |]; try exact I.
    intros n. apply (no_worse_trans _ (scores_get sc' n)); [apply IHr|].
    destruct Hsc' as [[d [a [-> _]]]|[[-> _]|[r0 [H4 _]]]].
    + apply no_worse_update.
    + apply no_worse_refl.
    + exfalso. pose proof (input_choice_inv MENU_CHOICES ls) as Hi. rewrite H4 in Hi.
      destruct Hi as [_ [skipped [raw [Hls' [Hc _]]]]].
      rewrite Hls' in Hls. apply Forall_app in Hls. destruct Hls as [_ Hls].
      inversion Hls as [|? ? Hno]. apply Hno. symmetry. exact Hc.
Qed.

(** X16: unless "4" is chosen, no record of the session gets worse: when
    [menu_loop] returns, every difficulty that had a record in the file it
    loaded has one at most as large in its table (winning rounds only lower
    records).  Here no line of the input reads as "4" at all. *)
Theorem records_never_worsen (e : env) (fuel : nat) (f : fs) (ls : stream) :
  Forall no_reset_line ls ->
  match load_from e f, menu_loop e fuel f ls with
  | PyOk sc0, MenuDone sc _ _ => forall n, no_worse (scores_get sc n) (scores_get sc0 n)
  | _, _ => True
  end.
Proof.
  intros Hls. unfold menu_loop.
  destruct (load_from e f) as [sc0|pe]; [|exact I].
  exact (menu_go_records e fuel 0 sc0 f ls Hls).
Qed.

Lemma records_never_worsen_witness :
  let e := {| secret_at := fun _ => 42; write_at := fun _ => WriteOk;
              remove_ok := fun _ => true;
              read_file := fun _ => FileDecoded (JObj [("Hard", JInt 5)]%string) |} in
  let ls := [Line "1"; Line "h"; Line "50"; Line "42"; Line ""; Line "5"] in
  Forall no_reset_line ls /\
  match load_from e (Some "x"%string), menu_loop e 7 (Some "x"%string) ls with
  | PyOk sc0, MenuDone sc _ _ => forall n, no_worse (scores_get sc n) (scores_get sc0 n)
  | _, _ => True
  end.
Proof.
  intros e ls. assert (H : Forall no_reset_line ls).
  { repeat constructor; unfold no_reset_line; vm_compute; discriminate. }
  split; [exact H|]. exact (records_never_worsen e 7 (Some "x"%string) ls H).
Defined.

(** ** The round read from the console, by difficulty *)

Lemma play_io_range (m : option Z) (s : Z) (ls : stream) : forall a,
  match play_io m s a ls with
  | IOk v _ => (v = FORFEIT /\ m <> None) \/ (a < v /\ forall b, m = Some b -> v <= b)
  | IORaise ex _ => ex = SystemExit0
  end.
Proof.
  remember (length ls) as n eqn:Hn. assert (Hle : (length ls <= n)%nat) by lia.
  clear Hn. revert ls Hle.
  induction n as [n IHn] using (well_founded_induction lt_wf).
  intros ls Hle a. rewrite play_io_read.
  destruct (match m with Some b => b - a <=? 0 | None => false end) eqn:Hout.
  - left. split; [reflexivity|]. destruct m; [discriminate|discriminate].
  - pose proof (input_int_inv 1 100 ls) as H.
    destruct (input_int 1 100 ls) as [g r|ex r]; [|apply H].
    destruct H as [_ [skipped [raw [-> _]]]].
    destruct (g =? s).
    + right. split; [lia|]. intros b ->. apply Z.leb_gt in Hout. lia.
    + assert (Hlt : (length r < n)%nat) by (rewrite length_app in Hle; simpl in Hle; lia).
      pose proof (IHn (length r) Hlt r (le_n _) (a + 1)) as IH.
      destruct (play_io m s (a + 1) r) as [v r'|ex r']; [|exact IH].
      destruct IH as [IH|[Hv Hb]]; [left; exact IH|right; split; [lia|exact Hb]].
Qed.

(** X17: on [Normal] or [Hard] the round of [menu_loop] returns either
    the sentinel [10**9] (out of attempts) or a count from 1 to the budget;
    on [Easy] it returns a count of at least 1 (which may itself reach
    [10**9], see C5).  The only exception it lets out is [SystemExit(0)]. *)
Theorem play_io_result_range (d : difficulty) (s : Z) (ls : stream) :
  match play_io (max_attempts d) s 0 ls with
  | IOk v _ =>
      match max_attempts d with
      | Some b => v = FORFEIT \/ 1 <= v <= b
      | None => 1 <= v
      end
  | IORaise ex _ => ex = SystemExit0
  end.
Proof.
  pose proof (play_io_range (max_attempts d) s ls 0) as H.
  destruct (play_io (max_attempts d) s 0 ls) as [v r|ex r]; [|exact H].
  destruct (max_attempts d) as [b|].
  - destruct H as [[Hv _]|[Hv Hb]]; [left; exact Hv|].
    right. specialize (Hb b eq_refl). lia.
  - destruct H as [[_ Hm]|[Hv _]]; [contradiction|lia].
Qed.

(** ** The file a session leaves *)

(** [f] is the file [f0] the session started with, no file, or the text
    [json.dump] writes for a table with the three difficulty names as keys,
    whole or cut short by a failed write. *)
Definition file_written (f0 f : fs) : Prop :=
  f = f0 \/ f = None \/
  exists t, dict_keys t = ["Easy"; "Normal"; "Hard"]%string /\
    (f = Some (json_dump t) \/ exists n, f = Some (substring 0 n (json_dump t))).

Lemma file_written_update (w : write_outcome) (f0 f : fs) (sc : table)
    (d : difficulty) (a : Z) :
  dict_keys sc = ["Easy"; "Normal"; "Hard"]%string -> file_written f0 f ->
  file_written f0 (snd (update_highscore w f sc (diff_name d) a)).
Proof.
  intros Hsc Hf. rewrite update_highscore_eq.
  destruct (improves (scores_get sc (diff_name d)) a); [|exact Hf].
  assert (Hk : dict_keys (dict_set sc (diff_name d) (Some (NInt a))) =
               ["Easy"; "Normal"; "Hard"]%string)
    by (rewrite dict_keys_set, Hsc; destruct d; reflexivity).
  destruct w as [| |n]; simpl; [| exact Hf |].
  - right; right. exists (dict_set sc (diff_name d) (Some (NInt a))). split; [exact Hk|]. left. reflexivity.
  - right; right. exists (dict_set sc (diff_name d) (Some (NInt a))). split; [exact Hk|].
    right. exists n. reflexivity.
Qed.

Lemma menu_go_file (e : env) (f0 : fs) (fuel : nat) : forall k sc f ls,
  dict_keys sc = ["Easy"; "Normal"; "Hard"]%string -> file_written f0 f ->
  match menu_go e fuel k sc f ls with
  | MenuDone _ f' _ | MenuRaise _ f' => file_written f0 f'
  | MenuOutOfFuel => True
  end.
Proof.
  induction fuel as [|fuel IH]; intros k sc f ls Hsc Hf; [exact I|].
  destruct (menu_go_step e fuel k sc f ls)
    as [[r H]|[[ex [f' [H Hf']]]|[sc' [f' [r [H [_ [_ Hsc']]]]]]]]; rewrite H.
  - exact Hf.
  - destruct Hf' as [->|[->|[d [a ->]]]].
    + exact Hf.
    + right; left; reflexivity.
    + apply file_written_update; assumption.
  - destruct Hsc' as [[d [a [-> ->]]]|[[-> ->]|[r0 [_ [Hload Hf']]]]].
    + apply IH; [|apply file_written_update; assumption].
      rewrite update_highscore_keys_inv, Hsc. destruct d; reflexivity.
    + apply IH; assumption.
    + apply IH; [exact (load_from_keys e f' sc' Hload)|].
      destruct Hf' as [->| ->]; [exact Hf|right; left; reflexivity].
Qed.

(** X18: however a session of [menu_loop] ends (returning or raising), the
    highscore file is the one it started with, no file (after a reset), or
    the text [json.dump] writes for a table keyed by the three difficulty
    names, possibly cut short when a write failed; the [OSError] of that
    failed write is swallowed, so a truncated file can be left behind. *)
Theorem session_file_shape (e : env) (fuel : nat) (f : fs) (ls : stream) :
  match menu_loop e fuel f ls with
  | MenuDone _ f' _ | MenuRaise _ f' => file_written f f'
  | MenuOutOfFuel => True
  end.
Proof.
  unfold menu_loop. destruct (load_from e f) as [sc|pe] eqn:Hload.
  - apply menu_go_file; [exact (load_from_keys e f sc Hload)|left; reflexivity].
  - left; reflexivity.
Qed.
